(** * Meed: a shallow embedding of [src/meed.js]

    Meed fetches Medium feeds through an injected [fetch], checks the
    response, parses it (RSS through the external [rss-parser], the topics
    directory through [JSON.parse]) and maps the parsed value to a flat
    record.  This file embeds the JavaScript of [meed.js] function by
    function and proves properties of it.

    Conventions of the embedding:
    - a JavaScript string is a [string]: one [ascii] per code unit, for the
      code units 0..255 (Latin-1).  Header values are byte strings, and
      every literal of the source is ASCII;
    - a thrown exception is a value of [exn], and a computation that can
      throw returns a [result];
    - the client methods run in [io], which also records every URL handed to
      the transport. *)

From Stdlib Require Import String Ascii List ZArith NArith Bool Lia DecimalString.
Import ListNotations.
Open Scope list_scope.
Open Scope string_scope.

Set Warnings "-register-all".

(** ** Exceptions and results *)

(** What the source throws, and what the engine throws on its behalf.
    - [JsError m] is [new Error(m)], [JsTypeError m] is [new TypeError(m)];
    - [NativeTypeError] is the [TypeError] the engine raises for a property
      read on [undefined] or [null] and for a call of something that is not a
      function (its message is implementation defined);
    - [JsSyntaxError] is what [JSON.parse] raises on malformed text;
    - [Unmodelled] is no JavaScript exception: it marks an input that leaves
      the fragment embedded here (a code unit above U+00FF, a number literal
      the engine would round, the text or the answer of a function stored
      in a value).

    The specification names the errors by their origin: its UpstreamError is
    the [Error] of [check], its ValidationError the [TypeError] of the
    constructor and of the methods and the [Error] of [formatTopics], its
    ParseError what the two parsers throw. *)
Inductive exn : Type :=
| JsError (msg : string)
| JsTypeError (msg : string)
| NativeTypeError
| JsSyntaxError
| Unmodelled.

Inductive result (A : Type) : Type :=
| Return (a : A)
| Throw (e : exn).
Arguments Return {A} a.
Arguments Throw {A} e.

Definition rbind {A B : Type} (r : result A) (k : A -> result B) : result B :=
  match r with
  | Return a => k a
  | Throw e => Throw e
  end.

Declare Scope result_scope.
Delimit Scope result_scope with result.
Notation "x <- r ;; k" := (rbind r (fun x => k))
  (at level 61, r at next level, right associativity) : result_scope.
Notation "' p <- r ;; k" := (rbind r (fun p => k))
  (at level 61, p pattern, r at next level, right associativity) : result_scope.
Open Scope result_scope.

(** [Array.prototype.map] with a callback that can throw: the callback runs
    on the elements from left to right and the first exception ends the map. *)
Fixpoint mapM {A B : Type} (f : A -> result B) (l : list A) : result (list B) :=
  match l with
  | [] => Return []
  | x :: t => y <- f x ;; ys <- mapM f t ;; Return (y :: ys)
  end.

(** ** Strings *)

Definition code (c : ascii) : N := N_of_ascii c.

(** [String.prototype.toLowerCase] on the Latin-1 code units: A..Z, and the
    accented capitals U+00C0..U+00DE without the multiplication sign. *)
Definition lower_ascii (c : ascii) : ascii :=
  let n := code c in
  if ((65 <=? n) && (n <=? 90) ||
      (192 <=? n) && (n <=? 222) && negb (n =? 215))%N
  then ascii_of_N (n + 32) else c.

Fixpoint toLowerCase (s : string) : string :=
  match s with
  | EmptyString => EmptyString
  | String c t => String (lower_ascii c) (toLowerCase t)
  end.

(** [String.prototype.includes]: [needle] occurs somewhere in [s]. *)
Fixpoint includes (s needle : string) : bool :=
  prefix needle s ||
  match s with
  | EmptyString => false
  | String _ t => includes t needle
  end.

(** [String.prototype.split] with a separator of one code unit. *)
Fixpoint split (sep : ascii) (s : string) : list string :=
  match s with
  | EmptyString => [EmptyString]
  | String c t =>
      if Ascii.eqb c sep then EmptyString :: split sep t
      else match split sep t with
           | h :: r => String c h :: r
           | [] => [String c EmptyString]
           end
  end.

Fixpoint drop (n : nat) (s : string) : string :=
  match n, s with
  | O, _ => s
  | S _, EmptyString => EmptyString
  | S m, String _ t => drop m t
  end.

(** [String.prototype.slice(start)] at an integer [start]: a negative start
    counts from the end, and the start is clamped to the string. *)
Definition slice (s : string) (start : Z) : string :=
  let len := Z.of_nat (String.length s) in
  let from := if (start <? 0)%Z then Z.max (len + start) 0 else Z.min start len in
  drop (Z.to_nat from) s.

Definition string_of_Z (z : Z) : string := NilZero.string_of_int (Z.to_int z).

Fixpoint zeros (n : nat) : string :=
  match n with
  | O => EmptyString
  | S m => String "0" (zeros m)
  end.

(** ** Numbers

    A number is [NaN], an infinity, or a decimal [mant * 10 ^ expo]: the
    source does no arithmetic, it only tests numbers for truth and prints
    them.  [Number_toString] is the algorithm of ECMAScript's
    [Number::toString] on the decimal digits, which is what JavaScript
    prints whenever the decimal is the shortest one of its double (up to 15
    significant digits); the JSON reader below keeps to such literals. *)
Inductive number : Type :=
| NaN
| Infinity (negative : bool)
| Dec (mant expo : Z).

Definition number_is_zero (n : number) : bool :=
  match n with
  | Dec m _ => (m =? 0)%Z
  | _ => false
  end.

Fixpoint trailing_zeros (s : string) : nat :=
  match s with
  | EmptyString => O
  | String c t =>
      let k := trailing_zeros t in
      if Ascii.eqb c "0" && Nat.eqb k (String.length t) then S k else k
  end.

Definition Number_toString (x : number) : string :=
  match x with
  | NaN => "NaN"
  | Infinity false => "Infinity"
  | Infinity true => "-Infinity"
  | Dec m e =>
      if (m =? 0)%Z then "0" else
      let all := string_of_Z (Z.abs m) in
      let tz := trailing_zeros all in
      let s := substring 0 (String.length all - tz) all in
      let k := String.length s in
      let n := (e + Z.of_nat tz + Z.of_nat k)%Z in
      let sign := if (m <? 0)%Z then "-" else "" in
      let body :=
        if (Z.of_nat k <=? n)%Z && (n <=? 21)%Z then
          s ++ zeros (Z.to_nat n - k)
        else if (0 <? n)%Z && (n <=? 21)%Z then
          substring 0 (Z.to_nat n) s ++ "." ++ drop (Z.to_nat n) s
        else if (-6 <? n)%Z && (n <=? 0)%Z then
          "0." ++ zeros (Z.to_nat (- n)) ++ s
        else
          let ex := (if (n - 1 <? 0)%Z then "-" else "+")
                    ++ string_of_Z (Z.abs (n - 1)) in
          if Nat.eqb k 1 then s ++ "e" ++ ex
          else substring 0 1 s ++ "." ++ drop 1 s ++ "e" ++ ex
      in sign ++ body
  end.

(** ** The transport and its responses

    A [Response] as far as [check] reads it: [ok], [status], the header list
    and the body that [text()] resolves to. *)
Record Response : Type := mkResponse {
  ok : bool;
  status : Z;
  headers : list (string * string);
  text : string
}.

Fixpoint join (sep : string) (l : list string) : string :=
  match l with
  | [] => EmptyString
  | [s] => s
  | s :: t => s ++ sep ++ join sep t
  end.

(** [Headers.prototype.get]: header names compare without case, the values
    of a repeated header are joined by a comma and a space, and a header the
    response does not carry reads as [null] ([None]). *)
Definition Headers_get (hs : list (string * string)) (name : string)
  : option string :=
  match filter (fun h => String.eqb (toLowerCase (fst h)) (toLowerCase name)) hs with
  | [] => None
  | found => Some (join ", " (map snd found))
  end.

(** A transport takes a URL; its promise resolves to a response or rejects. *)
Definition transport : Type := string -> result Response.

(** ** Values *)

Inductive value : Type :=
| VUndefined
| VNull
| VBool (b : bool)
| VNum (n : number)
| VStr (s : string)
| VArr (elems : list value)
| VObj (props : list (string * value))
| VFun (f : transport).

Definition typeof (v : value) : string :=
  match v with
  | VUndefined => "undefined"
  | VNull => "object"
  | VBool _ => "boolean"
  | VNum _ => "number"
  | VStr _ => "string"
  | VArr _ => "object"
  | VObj _ => "object"
  | VFun _ => "function"
  end.

(** [ToBoolean]. *)
Definition truthy (v : value) : bool :=
  match v with
  | VUndefined | VNull => false
  | VBool b => b
  | VNum NaN => false
  | VNum n => negb (number_is_zero n)
  | VStr s => negb (String.eqb s "")
  | VArr _ | VObj _ | VFun _ => true
  end.

(** The own properties of an object, in property order. *)
Fixpoint lookup {A : Type} (k : string) (ps : list (string * A)) : option A :=
  match ps with
  | [] => None
  | (k', v) :: t => if String.eqb k k' then Some v else lookup k t
  end.

(** A property read [v.k] or [v[k]] for the keys [meed.js] reads.  Reading
    from [undefined] or [null] throws.  Only own properties are looked up:
    no key that [meed.js] reads from a parsed value is inherited by an
    object, and a key that a primitive inherits ([link] on a string) holds
    nothing the source can use. *)
Definition get (v : value) (k : string) : result value :=
  match v with
  | VUndefined | VNull => Throw NativeTypeError
  | VObj ps => Return (match lookup k ps with Some x => x | None => VUndefined end)
  | VArr l =>
      if String.eqb k "length"
      then Return (VNum (Dec (Z.of_nat (List.length l)) 0))
      else Return VUndefined
  | VStr s =>
      if String.eqb k "length"
      then Return (VNum (Dec (Z.of_nat (String.length s)) 0))
      else Return VUndefined
  | VBool _ | VNum _ | VFun _ => Return VUndefined
  end.

(** [ToString], as a template literal applies it.  An array prints its
    elements joined by commas, [undefined] and [null] elements as nothing; a
    plain object prints as [[object Object]], unless it carries a [toString]
    of its own.  One that is no function is passed over for [valueOf], and
    the conversion ends in the engine's [TypeError] unless a [valueOf] of
    its own is a function; what a function stored in either place would
    answer is outside the model. *)
Fixpoint to_string (v : value) : result string :=
  match v with
  | VUndefined => Return "undefined"
  | VNull => Return "null"
  | VBool true => Return "true"
  | VBool false => Return "false"
  | VNum n => Return (Number_toString n)
  | VStr s => Return s
  | VArr l =>
      let elem (x : value) : result string :=
        match x with
        | VUndefined | VNull => Return ""
        | _ => to_string x
        end in
      (fix go (l : list value) : result string :=
         match l with
         | [] => Return ""
         | [x] => elem x
         | x :: t => sx <- elem x ;; st <- go t ;; Return (sx ++ "," ++ st)
         end) l
  | VObj ps =>
      match lookup "toString" ps with
      | None => Return "[object Object]"
      | Some (VFun _) => Throw Unmodelled
      | Some _ =>
          match lookup "valueOf" ps with
          | Some (VFun _) => Throw Unmodelled
          | _ => Throw NativeTypeError
          end
      end
  | VFun _ => Throw Unmodelled
  end.

(** A template literal: its pieces are converted and concatenated in order. *)
Inductive piece : Type :=
| Lit (s : string)
| Sub (v : value).

Fixpoint template (ps : list piece) : result string :=
  match ps with
  | [] => Return ""
  | Lit s :: t => r <- template t ;; Return (s ++ r)
  | Sub v :: t => s <- to_string v ;; r <- template t ;; Return (s ++ r)
  end.

Fixpoint indexed {A : Type} (i : nat) (l : list A) : list (string * A) :=
  match l with
  | [] => []
  | x :: t => (string_of_Z (Z.of_nat i), x) :: indexed (S i) t
  end.

Fixpoint chars (s : string) : list value :=
  match s with
  | EmptyString => []
  | String c t => VStr (String c EmptyString) :: chars t
  end.

(** [Object.entries]: the own enumerable properties in property order. *)
Definition Object_entries (v : value) : result (list (string * value)) :=
  match v with
  | VUndefined | VNull => Throw NativeTypeError
  | VObj ps => Return ps
  | VArr l => Return (indexed 0 l)
  | VStr s => Return (indexed 0 (chars s))
  | VBool _ | VNum _ | VFun _ => Return []
  end.

(** ** Objects as [JSON.parse] builds them

    The property order of an object: the array-index keys in ascending
    order, then the other keys in the order of their creation.  Defining a
    key again replaces its value where it stands. *)

Definition is_digit (c : ascii) : bool := ((48 <=? code c) && (code c <=? 57))%N.

Fixpoint all_digits (s : string) : bool :=
  match s with
  | EmptyString => true
  | String c t => is_digit c && all_digits t
  end.

Fixpoint digits_value (acc : Z) (s : string) : Z :=
  match s with
  | EmptyString => acc
  | String c t => digits_value (10 * acc + (Z.of_N (code c) - 48)) t
  end.

(** A canonical numeric string below [2^32 - 1]. *)
Definition array_index (k : string) : option Z :=
  match k with
  | EmptyString => None
  | String c t =>
      if all_digits k && (negb (Ascii.eqb c "0") || String.eqb t "")
      then let n := digits_value 0 k in
           if (n <? 4294967295)%Z then Some n else None
      else None
  end.

Fixpoint replace {A : Type} (k : string) (v : A) (ps : list (string * A))
  : list (string * A) :=
  match ps with
  | [] => []
  | (k', v') :: t =>
      if String.eqb k k' then (k', v) :: t else (k', v') :: replace k v t
  end.

Fixpoint insert_index {A : Type} (i : Z) (k : string) (v : A)
  (ps : list (string * A)) : list (string * A) :=
  match ps with
  | [] => [(k, v)]
  | (k', v') :: t =>
      match array_index k' with
      | Some j => if (j <? i)%Z then (k', v') :: insert_index i k v t
                  else (k, v) :: ps
      | None => (k, v) :: ps
      end
  end.

Definition define {A : Type} (k : string) (v : A) (ps : list (string * A))
  : list (string * A) :=
  match lookup k ps with
  | Some _ => replace k v ps
  | None =>
      match array_index k with
      | Some i => insert_index i k v ps
      | None => (ps ++ [(k, v)])%list
      end
  end.

(** ** [JSON.parse]

    A recursive-descent reader of the JSON grammar.  [fuel] bounds the
    nesting of the calls; [JSON_parse] supplies two units per character and
    two more, which the reader never uses up ([JSON_parse_fuel]). *)

Definition dquote : ascii := ascii_of_N 34.

Definition is_ws (c : ascii) : bool :=
  let n := code c in ((n =? 32) || (n =? 9) || (n =? 10) || (n =? 13))%N.

Fixpoint skip_ws (s : string) : string :=
  match s with
  | String c t => if is_ws c then skip_ws t else s
  | EmptyString => s
  end.

Definition hex_value (c : ascii) : option N :=
  let n := code c in
  if ((48 <=? n) && (n <=? 57))%N then Some (n - 48)%N
  else if ((65 <=? n) && (n <=? 70))%N then Some (n - 55)%N
  else if ((97 <=? n) && (n <=? 102))%N then Some (n - 87)%N
  else None.

Definition hex4 (a b c d : ascii) : option N :=
  match hex_value a, hex_value b, hex_value c, hex_value d with
  | Some x, Some y, Some z, Some w => Some (((x * 16 + y) * 16 + z) * 16 + w)%N
  | _, _, _, _ => None
  end.

Definition unescape (c : ascii) : option ascii :=
  if Ascii.eqb c dquote then Some dquote
  else if Ascii.eqb c "\" then Some "\"%char
  else if Ascii.eqb c "/" then Some "/"%char
  else if Ascii.eqb c "b" then Some (ascii_of_N 8)
  else if Ascii.eqb c "f" then Some (ascii_of_N 12)
  else if Ascii.eqb c "n" then Some (ascii_of_N 10)
  else if Ascii.eqb c "r" then Some (ascii_of_N 13)
  else if Ascii.eqb c "t" then Some (ascii_of_N 9)
  else None.

(** The characters of a string literal after its opening quote, and the
    text after its closing quote. *)
Fixpoint parse_string (s : string) : result (string * string) :=
  match s with
  | EmptyString => Throw JsSyntaxError
  | String c t =>
      if Ascii.eqb c dquote then Return (EmptyString, t)
      else if Ascii.eqb c "\" then
        match t with
        | EmptyString => Throw JsSyntaxError
        | String e t1 =>
            if Ascii.eqb e "u" then
              match t1 with
              | String h1 (String h2 (String h3 (String h4 t2))) =>
                  match hex4 h1 h2 h3 h4 with
                  | Some n =>
                      if (n <? 256)%N
                      then ' (r, rest) <- parse_string t2 ;;
                           Return (String (ascii_of_N n) r, rest)
                      else Throw Unmodelled
                  | None => Throw JsSyntaxError
                  end
              | _ => Throw JsSyntaxError
              end
            else
              match unescape e with
              | Some a => ' (r, rest) <- parse_string t1 ;;
                          Return (String a r, rest)
              | None => Throw JsSyntaxError
              end
        end
      else if (code c <? 32)%N then Throw JsSyntaxError
      else ' (r, rest) <- parse_string t ;; Return (String c r, rest)
  end.

Fixpoint take_digits (s : string) : string * string :=
  match s with
  | String c t =>
      if is_digit c then let (d, r) := take_digits t in (String c d, r)
      else (EmptyString, s)
  | EmptyString => (EmptyString, s)
  end.

(** The text after a leading [c], when the text starts with one. *)
Definition after (c : ascii) (s : string) : option string :=
  match s with
  | String a t => if Ascii.eqb a c then Some t else None
  | EmptyString => None
  end.

(** The fraction of a number literal: its digits, none when there is no
    point. *)
Definition parse_fraction (s : string) : result (string * string) :=
  match after "." s with
  | Some t =>
      let (f, r) := take_digits t in
      if String.eqb f "" then Throw JsSyntaxError else Return (f, r)
  | None => Return (EmptyString, s)
  end.

(** The exponent of a number literal, zero when there is none. *)
Definition parse_exponent (s : string) : result (Z * string) :=
  match s with
  | String c t =>
      if Ascii.eqb c "e" || Ascii.eqb c "E" then
        let (eneg, t1) := match after "-" t, after "+" t with
                          | Some u, _ => (true, u)
                          | None, Some u => (false, u)
                          | None, None => (false, t)
                          end in
        let (d, r) := take_digits t1 in
        if String.eqb d "" then Throw JsSyntaxError
        else Return (if eneg : bool then (- digits_value 0 d)%Z
                     else digits_value 0 d, r)
      else Return (0%Z, s)
  | EmptyString => Return (0%Z, s)
  end.

(** The literals the decimals stand for faithfully: zero, and the decimals
    of at most 15 significant digits within the range of the normal
    doubles.  Such a literal is the shortest one of its double, so the
    engine tests and prints it as [number_is_zero] and [Number_toString]
    do. *)
Definition faithful_decimal (m e : Z) : bool :=
  (m =? 0)%Z ||
  let all := string_of_Z (Z.abs m) in
  let n := (e + Z.of_nat (String.length all))%Z in
  (String.length all - trailing_zeros all <=? 15)%nat
  && (-306 <=? n)%Z && (n <=? 308)%Z.

(** The number a literal denotes; a literal the engine would round is
    outside the model. *)
Definition finish_number (neg : bool) (m e : Z) (rest : string)
  : result (number * string) :=
  if faithful_decimal m e
  then Return (Dec (if neg then (- m)%Z else m) e, rest)
  else Throw Unmodelled.

(** A number literal: [-? int frac? exp?], with no leading zero in [int]. *)
Definition parse_number (s : string) : result (number * string) :=
  let (neg, s1) := match after "-" s with
                   | Some t => (true, t)
                   | None => (false, s)
                   end in
  let (int, s2) := take_digits s1 in
  if String.eqb int "" || (prefix "0" int && negb (String.eqb int "0"))
  then Throw JsSyntaxError else
  ' (frac, s3) <- parse_fraction s2 ;;
  ' (ex, s4) <- parse_exponent s3 ;;
  finish_number neg (digits_value 0 (int ++ frac))
    (ex - Z.of_nat (String.length frac)) s4.

Fixpoint parse_value (fuel : nat) (s : string) {struct fuel}
  : result (value * string) :=
  match fuel with
  | O => Throw Unmodelled
  | S n =>
      match skip_ws s with
      | EmptyString => Throw JsSyntaxError
      | String c t as s' =>
          if Ascii.eqb c "{" then
            match after "}" (skip_ws t) with
            | Some r => Return (VObj [], r)
            | None => parse_members n (skip_ws t) []
            end
          else if Ascii.eqb c "[" then
            match after "]" (skip_ws t) with
            | Some r => Return (VArr [], r)
            | None => parse_elements n (skip_ws t) []
            end
          else if Ascii.eqb c dquote then
            ' (str, r) <- parse_string t ;; Return (VStr str, r)
          else if prefix "true" s' then Return (VBool true, drop 4 s')
          else if prefix "false" s' then Return (VBool false, drop 5 s')
          else if prefix "null" s' then Return (VNull, drop 4 s')
          else ' (x, r) <- parse_number s' ;; Return (VNum x, r)
      end
  end

with parse_elements (fuel : nat) (s : string) (acc : list value) {struct fuel}
  : result (value * string) :=
  match fuel with
  | O => Throw Unmodelled
  | S n =>
      ' (v, r) <- parse_value n s ;;
      match skip_ws r with
      | String c r' =>
          if Ascii.eqb c "," then parse_elements n r' (acc ++ [v])%list
          else if Ascii.eqb c "]" then Return (VArr (acc ++ [v])%list, r')
          else Throw JsSyntaxError
      | EmptyString => Throw JsSyntaxError
      end
  end

with parse_members (fuel : nat) (s : string) (acc : list (string * value))
  {struct fuel} : result (value * string) :=
  match fuel with
  | O => Throw Unmodelled
  | S n =>
      match after dquote (skip_ws s) with
      | Some t =>
          ' (k, r) <- parse_string t ;;
          match after ":" (skip_ws r) with
          | Some r1 =>
              ' (v, r2) <- parse_value n r1 ;;
              match skip_ws r2 with
              | String c r3 =>
                  if Ascii.eqb c "," then parse_members n r3 (define k v acc)
                  else if Ascii.eqb c "}" then Return (VObj (define k v acc), r3)
                  else Throw JsSyntaxError
              | EmptyString => Throw JsSyntaxError
              end
          | None => Throw JsSyntaxError
          end
      | None => Throw JsSyntaxError
      end
  end.

Definition JSON_parse (s : string) : result value :=
  ' (v, r) <- parse_value (2 * String.length s + 2) s ;;
  match skip_ws r with
  | EmptyString => Return v
  | _ => Throw JsSyntaxError
  end.

(** Writes a JSON text with apostrophes where the double quotes go. *)
Fixpoint quoted (s : string) : string :=
  match s with
  | EmptyString => EmptyString
  | String c t => String (if Ascii.eqb c "'" then dquote else c) (quoted t)
  end.

(** * The source, function by function *)

Definition BASE : string := "https://medium.com".
Definition CDN : string := "https://cdn-images-1.medium.com".

(** [check(res, type)]: the body text of a response that is OK and of the
    expected type.  Calling [toLowerCase] on the [null] of a missing header
    is the engine's [TypeError]. *)
Definition check (res : Response) (type : string) : result string :=
  if negb (ok res) then
    Throw (JsError ("Response code not OK: " ++ Number_toString (Dec (status res) 0)))
  else
    match Headers_get (headers res) "Content-Type" with
    | None => Throw NativeTypeError
    | Some ct =>
        if negb (includes (toLowerCase ct) type) then
          Throw (JsError ("Response type not " ++ type ++ ": " ++ ct))
        else Return (text res)
    end.

(** [parseTopics(json, offset = 16)]; [None] is the argument left out. *)
Definition parseTopics (json : string) (offset : option Z) : result value :=
  let offset := match offset with Some o => o | None => 16%Z end in
  JSON_parse (slice json offset).

(** [new Date(v)], kept as the argument it was built from. *)
Inductive js_date : Type :=
| NewDate (arg : value).

(** The call [new Date(v)].  A primitive and a function always give a date
    (an invalid one at worst).  An object or an array is first converted to
    a primitive, by [valueOf] and then by [toString]: the [valueOf] they
    inherit hands the object back, so the conversion is the one of
    [to_string], and its [TypeError] is the one of the call; what a
    [valueOf] function of the object's own would answer is outside the
    model. *)
Definition new_Date (v : value) : result js_date :=
  match v with
  | VObj ps =>
      match lookup "valueOf" ps with
      | Some (VFun _) => Throw Unmodelled
      | _ => s <- to_string v ;; Return (NewDate v)
      end
  | VArr _ => s <- to_string v ;; Return (NewDate v)
  | _ => Return (NewDate v)
  end.

Module FeedItem.
Record t : Type := make {
  date : js_date;
  link : value;
  guid : value;
  title : value;
  author : value;
  content : value;
  categories : value
}.
End FeedItem.

Module Topic.
Record t : Type := make {
  slug : value;
  link : string;
  name : value;
  image : string;
  description : value
}.
End Topic.

(** [v.split(sep)] on a value.  A string splits.  On any other value the
    property [split] is read and called: the read throws on [undefined] and
    [null], and the call throws on what is no function, which is all a data
    value can hold; what a function stored as [split] in an object would
    answer is outside the model. *)
Definition String_split (v : value) (sep : ascii) : result (list string) :=
  match v with
  | VStr s => Return (split sep s)
  | VObj ps =>
      match lookup "split" ps with
      | Some (VFun _) => Throw Unmodelled
      | _ => Throw NativeTypeError
      end
  | _ => Throw NativeTypeError
  end.

(** [a[0]] on the array a split returns. *)
Definition first (l : list string) : value :=
  match l with
  | s :: _ => VStr s
  | [] => VUndefined
  end.

(** [v.map(f)] on a value.  An array maps.  On any other value the property
    [map] is read and called, with the same outcomes as for [split]. *)
Definition Array_map {B : Type} (v : value) (f : value -> result B)
  : result (list B) :=
  match v with
  | VArr l => mapM f l
  | VObj ps =>
      match lookup "map" ps with
      | Some (VFun _) => Throw Unmodelled
      | _ => Throw NativeTypeError
      end
  | _ => Throw NativeTypeError
  end.

Definition ctag_of (type : string) : string :=
  if existsb (String.eqb type) ["user"; "publication"]
  then "content:encoded" else "description".

(** The callback of [formatRSS], on one item. *)
Definition formatItem (ctag : string) (item : value) : result FeedItem.t :=
  isoDate <- get item "isoDate" ;;
  date <- new_Date isoDate ;;
  link <- get item "link" ;;
  parts <- String_split link "?" ;;
  guid <- get item "guid" ;;
  title <- get item "title" ;;
  creator <- get item "creator" ;;
  content <- get item ctag ;;
  categories <- get item "categories" ;;
  Return {| FeedItem.date := date;
            FeedItem.link := first parts;
            FeedItem.guid := guid;
            FeedItem.title := title;
            FeedItem.author := creator;
            FeedItem.content := content;
            FeedItem.categories := if truthy categories then categories else VArr [] |}.

(** [formatRSS(json, type)]. *)
Definition formatRSS (json : value) (type : string) : result (list FeedItem.t) :=
  let ctag := ctag_of type in
  items <- get json "items" ;;
  Array_map items (formatItem ctag).

(** The callback of [formatTopics], on one entry [[key, value]]. *)
Definition formatTopic (topic : string * value) : result Topic.t :=
  let topic1 := snd topic in
  slug <- get topic1 "slug" ;;
  slug' <- get topic1 "slug" ;;
  link <- template [Lit BASE; Lit "/topic/"; Sub slug'] ;;
  name <- get topic1 "name" ;;
  image <- get topic1 "image" ;;
  id <- get image "id" ;;
  image_url <- template [Lit CDN; Lit "/"; Sub id] ;;
  description <- get topic1 "description" ;;
  Return {| Topic.slug := slug;
            Topic.link := link;
            Topic.name := name;
            Topic.image := image_url;
            Topic.description := description |}.

(** [json.payload.references.Topic]. *)
Definition topic_map (json : value) : result value :=
  payload <- get json "payload" ;;
  references <- get payload "references" ;;
  get references "Topic".

(** [formatTopics(json)].  The guard reads [json.success] first and reads
    the topic map only when the flag is truthy. *)
Definition formatTopics (json : value) : result (list Topic.t) :=
  success <- get json "success" ;;
  invalid <- (if negb (truthy success) then Return true
              else m <- topic_map json ;; Return (negb (truthy m))) ;;
  if invalid : bool then Throw (JsError "Invalid topics JSON")
  else
    m <- topic_map json ;;
    entries <- Object_entries m ;;
    mapM formatTopic entries.

(** ** The client

    A method runs in [io]: the URLs handed to the transport, in order, and
    the outcome the method's promise settles to. *)
Definition io (A : Type) : Type := (list string * result A)%type.

Definition lift {A : Type} (r : result A) : io A := ([], r).

Definition iobind {A B : Type} (m : io A) (k : A -> io B) : io B :=
  match m with
  | (l, Return a) => let (l', r) := k a in ((l ++ l')%list, r)
  | (l, Throw e) => (l, Throw e)
  end.

Declare Scope io_scope.
Delimit Scope io_scope with io.
Notation "x <- m ;; k" := (iobind m (fun x => k))
  (at level 61, m at next level, right associativity) : io_scope.

Definition requests {A : Type} (m : io A) : list string := fst m.
Definition outcome {A : Type} (m : io A) : result A := snd m.

(** [f(url)]: the call is recorded when [f] is a function. *)
Definition call (f : value) (url : string) : io Response :=
  match f with
  | VFun t => ([url], t url)
  | _ => ([], Throw NativeTypeError)
  end.

Record Meed : Type := mkMeed {
  proxy : value;
  fetch : value
}.

(** [typeof v === "string" && v.length > 0]. *)
Definition nonempty_string (v : value) : bool :=
  String.eqb (typeof v) "string" &&
  match v with
  | VStr s => (0 <? String.length s)%nat
  | _ => false
  end.

(** [f.bind(self)]: the same function with its receiver fixed; a transport
    has no receiver here. *)
Definition bind_to (f self : value) : value := f.

(** [v || false]. *)
Definition or_false (v : value) : value := if truthy v then v else VBool false.

(** The default parameter [options = {}]. *)
Definition with_default (options : value) : value :=
  match options with
  | VUndefined => VObj []
  | _ => options
  end.

(** [new Meed(options)] in a host whose global [self] is [self]
    ([VUndefined] when the host declares none).  An argument left out is
    [VUndefined] and takes the default [{}]. *)
Definition new_Meed (self options : value) : result Meed :=
  let options := with_default options in
  p <- get options "proxy" ;;
  let proxy := or_false p in
  if negb (match proxy with VBool false => true | _ => false end)
     && negb (String.eqb (typeof proxy) "string")
  then Throw (JsTypeError "Proxy must be a string")
  else
    ambient <- (if String.eqb (typeof self) "object"
                then f <- get self "fetch" ;;
                     Return (String.eqb (typeof f) "function")
                else Return false) ;;
    fetch <- (if ambient : bool
              then f <- get self "fetch" ;; Return (bind_to f self)
              else get options "fetch") ;;
    if negb (String.eqb (typeof fetch) "function")
    then Throw (JsTypeError "Fetch is required and must be a function")
    else Return {| proxy := proxy; fetch := fetch |}.

Section Client.

(** [new RSSParser().parseString], the external RSS reader. *)
Variable parseString : string -> result value.

Definition parseRSS (rss : string) : result value := parseString rss.

Open Scope io_scope.

(** [getRSS.call(this, url, feedType, contentType)]. *)
Definition getRSS (this : Meed) (url feedType contentType : string)
  : io (list FeedItem.t) :=
  res <- call (fetch this) url ;;
  rss <- lift (check res contentType) ;;
  json <- lift (parseRSS rss) ;;
  lift (formatRSS json feedType).

(** [getTopics.call(this, url, contentType)]. *)
Definition getTopics (this : Meed) (url contentType : string)
  : io (list Topic.t) :=
  res <- call (fetch this) url ;;
  json <- lift (check res contentType) ;;
  json <- lift (parseTopics json None) ;;
  lift (formatTopics json).

Definition user (this : Meed) (name : value) : io (list FeedItem.t) :=
  if negb (nonempty_string name) then
    lift (Throw (JsTypeError "User is required and must be a string"))
  else
    url <- lift (if truthy (proxy this)
                 then template [Sub (proxy this); Lit BASE; Lit "/feed/@"; Sub name]
                 else template [Lit BASE; Lit "/feed/@"; Sub name]) ;;
    getRSS this url "user" "text/xml".

Definition publication (this : Meed) (name tag : value) : io (list FeedItem.t) :=
  if negb (nonempty_string name) then
    lift (Throw (JsTypeError "Publication is required and must be a string"))
  else if negb (match tag with VUndefined => true | _ => false end)
          && negb (nonempty_string tag) then
    lift (Throw (JsTypeError "Tag must be a string"))
  else
    url <- lift (if truthy (proxy this)
                 then template [Sub (proxy this); Lit BASE; Lit "/feed/"; Sub name]
                 else template [Lit BASE; Lit "/feed/"; Sub name]) ;;
    url <- lift (match tag with
                 | VUndefined => Return url
                 | _ => r <- template [Lit "/tagged/"; Sub tag] ;; Return (url ++ r)
                 end)%result ;;
    getRSS this url "publication" "text/xml".

Definition topic (this : Meed) (name : value) : io (list FeedItem.t) :=
  if negb (nonempty_string name) then
    lift (Throw (JsTypeError "Topic is required and must be a string"))
  else
    url <- lift (if truthy (proxy this)
                 then template [Sub (proxy this); Lit BASE; Lit "/feed/topic/"; Sub name]
                 else template [Lit BASE; Lit "/feed/topic/"; Sub name]) ;;
    getRSS this url "topic" "text/xml".

Definition topics (this : Meed) : io (list Topic.t) :=
  url <- lift (if truthy (proxy this)
                 then template [Sub (proxy this); Lit BASE; Lit "/topics?format=json"]
                 else template [Lit BASE; Lit "/topics?format=json"]) ;;
  getTopics this url "application/json".

Definition tag (this : Meed) (name : value) : io (list FeedItem.t) :=
  if negb (nonempty_string name) then
    lift (Throw (JsTypeError "Tag is required and must be a string"))
  else
    url <- lift (if truthy (proxy this)
                 then template [Sub (proxy this); Lit BASE; Lit "/feed/tag/"; Sub name]
                 else template [Lit BASE; Lit "/feed/tag/"; Sub name]) ;;
    getRSS this url "tag" "text/xml".

End Client.

(** * Vocabulary of the statements *)

(** The field [k] of [v], [undefined] when [v] has none. *)
Definition prop (v : value) (k : string) : value :=
  match get v k with
  | Return x => x
  | Throw _ => VUndefined
  end.

(** An item the formatter can take: its [link] is a string. *)
Definition has_link (item : value) : bool :=
  match get item "link" with
  | Return (VStr _) => true
  | _ => false
  end.

(** A value [new Date] takes without throwing. *)
Definition can_date (v : value) : bool :=
  match new_Date v with
  | Return _ => true
  | Throw _ => false
  end.

(** An item the callback of [formatRSS] formats: its [isoDate] makes a
    date and its [link] is a string. *)
Definition formattable (item : value) : bool :=
  can_date (prop item "isoDate") && has_link item.

(** [v] is an object that holds a function under the key [k]. *)
Definition has_callable (k : string) (v : value) : bool :=
  match v with
  | VObj ps =>
      match lookup k ps with
      | Some (VFun _) => true
      | _ => false
      end
  | _ => false
  end.

(** [s] contains [needle] when case is ignored. *)
Definition contains_ci (s needle : string) : bool :=
  includes (toLowerCase s) (toLowerCase needle).

(** The proxy prefix the options configure: the string given as [proxy],
    and nothing when the options give none. *)
Definition configured_proxy (options : value) : string :=
  match get (with_default options) "proxy" with
  | Return (VStr p) => p
  | _ => EmptyString
  end.

(** The fetch of the host: [self.fetch] when the global [self] is an object
    whose [fetch] is a function. *)
Definition ambient_fetch (self : value) : option value :=
  if String.eqb (typeof self) "object" then
    match get self "fetch" with
    | Return f => if String.eqb (typeof f) "function" then Some f else None
    | Throw _ => None
    end
  else None.

(** Scenario 3 of the specification: the guard prefix, the body and the
    topic it decodes to. *)
Definition guard_prefix : string := "])}while(1);</x>".

Definition scenario_json : string :=
  quoted "{'success':true,'payload':{'references':{'Topic':{'t1':{'slug':'ai','name':'AI','image':{'id':'img1'},'description':'d'}}}}}".

Definition scenario_body : string := guard_prefix ++ scenario_json.

Definition scenario_topic : Topic.t :=
  {| Topic.slug := VStr "ai";
     Topic.link := "https://medium.com/topic/ai";
     Topic.name := VStr "AI";
     Topic.image := "https://cdn-images-1.medium.com/img1";
     Topic.description := VStr "d" |}.

(** What the callback returns on an object whose [link] is the string [l]. *)
Definition formatted (ctag : string) (item : value) (l : string) : FeedItem.t :=
  {| FeedItem.date := NewDate (prop item "isoDate");
     FeedItem.link := first (split "?" l);
     FeedItem.guid := prop item "guid";
     FeedItem.title := prop item "title";
     FeedItem.author := prop item "creator";
     FeedItem.content := prop item ctag;
     FeedItem.categories :=
       if truthy (prop item "categories") then prop item "categories" else VArr [] |}.

(** A feed of two items, the second one bare. *)
Definition sample_items : list value :=
  [ VObj [("isoDate", VStr "2019-03-01T10:00:00.000Z");
          ("link", VStr "https://medium.com/p/1?source=rss----1");
          ("guid", VStr "https://medium.com/p/1");
          ("title", VStr "One");
          ("creator", VStr "Ann");
          ("content:encoded", VStr "<p>full</p>");
          ("description", VStr "short");
          ("categories", VArr [VStr "js"])];
    VObj [("link", VStr "https://medium.com/p/2")] ].

Definition sample_feed : value := VObj [("items", VArr sample_items)].

(** Three responses: not found, of another type, and an RSS body. *)
Definition resp_404 : Response :=
  {| ok := false; status := 404; headers := []; text := "gone" |}.

Definition resp_html : Response :=
  {| ok := true; status := 200;
     headers := [("content-type", "Text/HTML; charset=utf-8")];
     text := "<html/>" |}.

Definition resp_xml : Response :=
  {| ok := true; status := 200;
     headers := [("Content-Type", "Text/XML; charset=UTF-8")];
     text := "<rss/>" |}.

(** Two transports that can be told apart, and a parser that reads nothing. *)
Definition host_fetch : transport := fun _ => Throw (JsError "host").
Definition injected_fetch : transport := fun _ => Throw (JsError "injected").
Definition no_parser : string -> result value := fun _ => Throw JsSyntaxError.

(** A transport that answers every URL with the body of scenario 3. *)
Definition scenario_response : Response :=
  {| ok := true; status := 200;
     headers := [("content-type", "application/json; charset=utf-8")];
     text := scenario_body |}.

Definition scenario_fetch : transport := fun _ => Return scenario_response.

(** The text a value prints as in a template literal, empty when it cannot
    be printed. *)
Definition printed (v : value) : string :=
  match to_string v with
  | Return s => s
  | Throw _ => EmptyString
  end.

(** An entry of the topic map the callback of [formatTopics] can take: its
    [slug] can be read and printed, and so can the [id] of its [image]. *)
Definition topic_entry_ok (v : value) : bool :=
  match get v "slug", get v "image" with
  | Return sl, Return img =>
      match to_string sl, get img "id" with
      | Return _, Return i =>
          match to_string i with
          | Return _ => true
          | Throw _ => false
          end
      | _, _ => false
      end
  | _, _ => false
  end.

(** A decoded topics directory of two entries, the second without a slug,
    and one whose second entry has no image. *)
Definition sample_topic_entries : list (string * value) :=
  [ ("t1", VObj [("slug", VStr "ai"); ("name", VStr "AI");
                 ("image", VObj [("id", VStr "img1")]); ("description", VStr "d")]);
    ("t2", VObj [("name", VStr "Art"); ("image", VObj [("id", VStr "img2")])]) ].

Definition topics_json (entries : list (string * value)) : value :=
  VObj [("success", VBool true);
        ("payload", VObj [("references", VObj [("Topic", VObj entries)])])].

Definition broken_topic_entries : list (string * value) :=
  [ ("t1", VObj [("slug", VStr "ai"); ("name", VStr "AI");
                 ("image", VObj [("id", VStr "img1")]); ("description", VStr "d")]);
    ("t2", VObj [("slug", VStr "art"); ("name", VStr "Art")]) ].

(** A feed whose item has a date that cannot be converted to a primitive. *)
Definition undated_feed : value :=
  VObj [("items", VArr [VObj [("isoDate", VObj [("toString", VNum (Dec 1 0))]);
                              ("link", VStr "a")]])].

(** A feed whose second item has no link. *)
Definition broken_feed : value :=
  VObj [("items", VArr [VObj [("link", VStr "https://medium.com/p/1")];
                        VObj [("title", VStr "Two")]])].

(** The transport that answers every URL the same way. *)
Definition always (r : result Response) : transport := fun _ => r.

(** A client without proxy over a transport. *)
Definition client_of (f : transport) : Meed :=
  {| proxy := VBool false; fetch := VFun f |}.

(** A parse that returns leaves less text than it was given. *)
Definition shrinks {A : Type} (s : string) (r : result (A * string)) : Prop :=
  match r with
  | Return (_, rest) => (String.length rest < String.length s)%nat
  | Throw _ => True
  end.

(** * The JSON reader never runs out of fuel *)

Lemma skip_ws_length (s : string) :
  (String.length (skip_ws s) <= String.length s)%nat.
Proof.
  induction s as [ | c t IH ]; simpl; [ lia | ].
  destruct (is_ws c); simpl; lia.
Qed.

Lemma after_length (c : ascii) (s t : string) :
  after c s = Some t -> String.length s = S (String.length t).
Proof.
  destruct s as [ | a u ]; simpl; [ discriminate | ].
  destruct (Ascii.eqb a c); [ | discriminate ]. now intros [= ->].
Qed.

Lemma drop_length (n : nat) (s : string) :
  (String.length (drop n s) <= String.length s)%nat.
Proof.
  revert s. induction n as [ | n IH ]; intros [ | c t ]; simpl; try lia.
  specialize (IH t). lia.
Qed.

Lemma take_digits_length (s d r : string) :
  take_digits s = (d, r) ->
  String.length s = (String.length d + String.length r)%nat.
Proof.
  revert d r. induction s as [ | c t IH ]; simpl; intros d r.
  - now intros [= <- <-].
  - destruct (is_digit c).
    + destruct (take_digits t) as [ d' r' ]. intros [= <- <-].
      simpl. now rewrite (IH d' r' eq_refl).
    + now intros [= <- <-].
Qed.

Lemma parse_fraction_length (s f r : string) :
  parse_fraction s = Return (f, r) ->
  (String.length r <= String.length s)%nat.
Proof.
  unfold parse_fraction. destruct (after "." s) as [ t | ] eqn:Et.
  - destruct (take_digits t) as [ d u ] eqn:Ed.
    destruct (String.eqb d ""); [ discriminate | ]. intros [= <- <-].
    apply after_length in Et. apply take_digits_length in Ed. lia.
  - intros [= <- <-]. lia.
Qed.

Lemma parse_exponent_length (s r : string) (x : Z) :
  parse_exponent s = Return (x, r) ->
  (String.length r <= String.length s)%nat.
Proof.
  unfold parse_exponent. destruct s as [ | c t ]; [ now intros [= <- <-] | ].
  destruct (Ascii.eqb c "e" || Ascii.eqb c "E"); [ | now intros [= <- <-] ].
  assert (H : forall b u, (String.length u <= String.length t)%nat ->
            (let (d, r0) := take_digits u in
             if String.eqb d "" then Throw JsSyntaxError
             else Return (if b : bool then (- digits_value 0 d)%Z
                          else digits_value 0 d, r0)) = Return (x, r) ->
            (String.length r <= String.length (String c t))%nat).
  { intros b u Hu. destruct (take_digits u) as [ d r0 ] eqn:Ed.
    destruct (String.eqb d ""); [ discriminate | ]. intros [= _ <-].
    apply take_digits_length in Ed. simpl. lia. }
  destruct (after "-" t) as [ u | ] eqn:E1.
  - apply (H true u). apply after_length in E1. lia.
  - destruct (after "+" t) as [ u | ] eqn:E2.
    + apply (H false u). apply after_length in E2. lia.
    + apply (H false t). lia.
Qed.

Lemma parse_number_shrinks (s : string) : shrinks s (parse_number s).
Proof.
  unfold shrinks. destruct (parse_number s) as [ [ x r ] | e ] eqn:E; [ | exact I ].
  unfold parse_number in E.
  assert (H : forall b s1, (String.length s1 <= String.length s)%nat ->
            (let (int, s2) := take_digits s1 in
             if String.eqb int "" || (prefix "0" int && negb (String.eqb int "0"))
             then Throw JsSyntaxError
             else ' (frac, s3) <- parse_fraction s2 ;;
                  ' (ex, s4) <- parse_exponent s3 ;;
                  finish_number b (digits_value 0 (int ++ frac))
                    (ex - Z.of_nat (String.length frac)) s4)
            = Return (x, r) ->
            (String.length r < String.length s)%nat).
  { intros b s1 Hs1. destruct (take_digits s1) as [ int s2 ] eqn:Ed.
    destruct (String.eqb_spec int "") as [ -> | Hint ]; [ discriminate | ].
    cbn [orb]. destruct (prefix "0" int && negb (String.eqb int "0"));
      [ discriminate | ].
    destruct (parse_fraction s2) as [ [ frac s3 ] | ] eqn:Ef; [ | discriminate ].
    cbn [rbind].
    destruct (parse_exponent s3) as [ [ ex s4 ] | ] eqn:Ee; [ | discriminate ].
    cbn [rbind]. unfold finish_number.
    destruct (faithful_decimal _ _); [ | discriminate ]. intros [= _ <-].
    apply take_digits_length in Ed. apply parse_fraction_length in Ef.
    apply parse_exponent_length in Ee.
    destruct int; [ now elim Hint | ]. simpl in Ed. lia. }
  destruct (after "-" s) as [ t | ] eqn:Es.
  - apply (H true t); [ | exact E ]. apply after_length in Es. lia.
  - apply (H false s); [ lia | exact E ].
Qed.

Lemma parse_string_shrinks (n : nat) :
  forall s, (String.length s <= n)%nat -> shrinks s (parse_string s).
Proof.
  induction n as [ | n IH ]; intros [ | c t ] Hlen; simpl in *; try exact I; try lia.
  assert (Hrec : forall (u : string) (a : ascii),
            (String.length u <= String.length t)%nat ->
            shrinks (String c t)
              (' (r, rest) <- parse_string u ;; Return (String a r, rest))).
  { intros u a Hu. assert (Hn : (String.length u <= n)%nat) by lia.
    specialize (IH u Hn). unfold shrinks in *.
    destruct (parse_string u) as [ [ r rest ] | ]; simpl; [ lia | exact I ]. }
  destruct (Ascii.eqb c dquote); [ simpl; lia | ].
  destruct (Ascii.eqb c "\").
  - destruct t as [ | e t1 ]; [ exact I | ].
    destruct (Ascii.eqb e "u").
    + destruct t1 as [ | h1 [ | h2 [ | h3 [ | h4 t2 ] ] ] ]; try exact I.
      destruct (hex4 h1 h2 h3 h4) as [ k | ]; [ | exact I ].
      destruct (k <? 256)%N; [ | exact I ]. apply Hrec. simpl. lia.
    + destruct (unescape e); [ | exact I ]. apply Hrec. simpl. lia.
  - destruct (code c <? 32)%N; [ exact I | ]. apply Hrec. lia.
Qed.

Lemma parse_shrinks (n : nat) :
  (forall s, shrinks s (parse_value n s))
  /\ (forall s acc, shrinks s (parse_elements n s acc))
  /\ (forall s acc, shrinks s (parse_members n s acc)).
Proof.
  induction n as [ | n (IHv & IHe & IHm) ]; [ repeat split | ].
  split; [ | split ].
  - intros s. cbn [parse_value]. pose proof (skip_ws_length s) as Hs.
    destruct (skip_ws s) as [ | c t ] eqn:Es; [ exact I | ].
    pose proof (skip_ws_length t) as Ht. simpl in Hs.
    destruct (Ascii.eqb c "{").
    { destruct (after "}" (skip_ws t)) as [ r | ] eqn:Ea.
      - apply after_length in Ea. simpl. lia.
      - specialize (IHm (skip_ws t) []). unfold shrinks in *.
        destruct (parse_members n (skip_ws t) []) as [ [ v r ] | ]; [ lia | exact I ]. }
    destruct (Ascii.eqb c "[").
    { destruct (after "]" (skip_ws t)) as [ r | ] eqn:Ea.
      - apply after_length in Ea. simpl. lia.
      - specialize (IHe (skip_ws t) []). unfold shrinks in *.
        destruct (parse_elements n (skip_ws t) []) as [ [ v r ] | ]; [ lia | exact I ]. }
    destruct (Ascii.eqb c dquote).
    { pose proof (parse_string_shrinks (String.length t) t (le_n _)) as Hp.
      unfold shrinks in *.
      destruct (parse_string t) as [ [ str r ] | ]; simpl; [ lia | exact I ]. }
    assert (Hd : forall k, (String.length (drop (S k) (String c t)) < String.length s)%nat).
    { intros k. simpl. pose proof (drop_length k t). lia. }
    destruct (prefix "true" (String c t)); [ apply Hd | ].
    destruct (prefix "false" (String c t)); [ apply Hd | ].
    destruct (prefix "null" (String c t)); [ apply Hd | ].
    pose proof (parse_number_shrinks (String c t)) as Hp. unfold shrinks in *.
    destruct (parse_number (String c t)) as [ [ x r ] | ]; simpl in *; [ lia | exact I ].
  - intros s acc. cbn [parse_elements]. specialize (IHv s). unfold shrinks in *.
    destruct (parse_value n s) as [ [ v r ] | ]; [ | exact I ]. cbn [rbind].
    pose proof (skip_ws_length r) as Hr.
    destruct (skip_ws r) as [ | c r' ]; [ exact I | ]. simpl in Hr.
    destruct (Ascii.eqb c ",").
    { specialize (IHe r' (acc ++ [v])%list).
      destruct (parse_elements n r' (acc ++ [v])%list) as [ [ w u ] | ];
        [ lia | exact I ]. }
    destruct (Ascii.eqb c "]"); [ lia | exact I ].
  - intros s acc. cbn [parse_members]. pose proof (skip_ws_length s) as Hs.
    destruct (after dquote (skip_ws s)) as [ t | ] eqn:Ea; [ | exact I ].
    apply after_length in Ea.
    pose proof (parse_string_shrinks (String.length t) t (le_n _)) as Hp.
    unfold shrinks in *.
    destruct (parse_string t) as [ [ k r ] | ]; [ | exact I ]. cbn [rbind].
    pose proof (skip_ws_length r) as Hr.
    destruct (after ":" (skip_ws r)) as [ r1 | ] eqn:Ec; [ | exact I ].
    apply after_length in Ec. specialize (IHv r1).
    destruct (parse_value n r1) as [ [ v r2 ] | ]; [ | exact I ]. cbn [rbind].
    pose proof (skip_ws_length r2) as Hr2.
    destruct (skip_ws r2) as [ | c r3 ]; [ exact I | ]. simpl in Hr2.
    destruct (Ascii.eqb c ",").
    { specialize (IHm r3 (define k v acc)).
      destruct (parse_members n r3 (define k v acc)) as [ [ w u ] | ];
        [ lia | exact I ]. }
    destruct (Ascii.eqb c "}"); [ lia | exact I ].
Qed.

(** With two units of fuel per character and one more (two for a list of
    elements), the reader gives the result it gives with any larger fuel. *)
Lemma parse_stable (n : nat) :
  (forall m s,
     (2 * String.length s + 1 <= n)%nat -> (2 * String.length s + 1 <= m)%nat ->
     parse_value n s = parse_value m s)
  /\ (forall m s acc,
        (2 * String.length s + 2 <= n)%nat -> (2 * String.length s + 2 <= m)%nat ->
        parse_elements n s acc = parse_elements m s acc)
  /\ (forall m s acc,
        (2 * String.length s + 1 <= n)%nat -> (2 * String.length s + 1 <= m)%nat ->
        parse_members n s acc = parse_members m s acc).
Proof.
  induction n as [ | n (IHv & IHe & IHm) ]; [ repeat split; intros; lia | ].
  split; [ | split ].
  - intros [ | m ] s Hn Hm; [ lia | ]. cbn [parse_value].
    pose proof (skip_ws_length s) as Hs.
    destruct (skip_ws s) as [ | c t ]; [ reflexivity | ].
    pose proof (skip_ws_length t) as Ht. simpl in Hs.
    destruct (Ascii.eqb c "{").
    { destruct (after "}" (skip_ws t)); [ reflexivity | apply IHm; lia ]. }
    destruct (Ascii.eqb c "[").
    { destruct (after "]" (skip_ws t)); [ reflexivity | apply IHe; lia ]. }
    reflexivity.
  - intros [ | m ] s acc Hn Hm; [ lia | ]. cbn [parse_elements].
    rewrite (IHv m s) by lia.
    pose proof (proj1 (parse_shrinks m) s) as Hv. unfold shrinks in Hv.
    destruct (parse_value m s) as [ [ v r ] | ]; [ | reflexivity ]. cbn [rbind].
    pose proof (skip_ws_length r) as Hr.
    destruct (skip_ws r) as [ | c r' ]; [ reflexivity | ]. simpl in Hr.
    destruct (Ascii.eqb c ","); [ apply IHe; lia | reflexivity ].
  - intros [ | m ] s acc Hn Hm; [ lia | ]. cbn [parse_members].
    pose proof (skip_ws_length s) as Hs.
    destruct (after dquote (skip_ws s)) as [ t | ] eqn:Ea; [ | reflexivity ].
    apply after_length in Ea.
    pose proof (parse_string_shrinks (String.length t) t (le_n _)) as Hp.
    unfold shrinks in Hp.
    destruct (parse_string t) as [ [ k r ] | ]; [ | reflexivity ]. cbn [rbind].
    pose proof (skip_ws_length r) as Hr.
    destruct (after ":" (skip_ws r)) as [ r1 | ] eqn:Ec; [ | reflexivity ].
    apply after_length in Ec. rewrite (IHv m r1) by lia.
    pose proof (proj1 (parse_shrinks m) r1) as Hv. unfold shrinks in Hv.
    destruct (parse_value m r1) as [ [ v r2 ] | ]; [ | reflexivity ]. cbn [rbind].
    pose proof (skip_ws_length r2) as Hr2.
    destruct (skip_ws r2) as [ | c r3 ]; [ reflexivity | ]. simpl in Hr2.
    destruct (Ascii.eqb c ","); [ apply IHm; lia | reflexivity ].
Qed.

(** [JSON_parse] has all the fuel the reader can use: more changes nothing. *)
Lemma JSON_parse_fuel (s : string) (extra : nat) :
  parse_value (2 * String.length s + 2 + extra) s
  = parse_value (2 * String.length s + 2) s.
Proof. apply (proj1 (parse_stable _)); lia. Qed.

(** * The feed formatter *)

Lemma has_link_inv (item : value) :
  has_link item = true ->
  exists ps l, item = VObj ps /\ lookup "link" ps = Some (VStr l).
Proof.
  unfold has_link.
  destruct item as [ | | b | n | s | l | ps | f ]; simpl; try discriminate.
  destruct (lookup "link" ps) as [ [ | | | | l | | | ] | ] eqn:E; try discriminate.
  intros _. exists ps, l. split; [reflexivity | exact E].
Qed.

Lemma get_throws (v : value) (k : string) (e : exn) :
  get v k = Throw e -> e = NativeTypeError.
Proof.
  destruct v; simpl; try discriminate; try (now intros [= <-]);
    destruct (String.eqb k "length"); discriminate.
Qed.

Lemma get_prop (v : value) (k : string) :
  v <> VUndefined -> v <> VNull -> get v k = Return (prop v k).
Proof.
  intros Hu Hn. unfold prop.
  destruct v; try contradiction; simpl; try reflexivity;
    destruct (String.eqb k "length"); reflexivity.
Qed.

Lemma get_returns (v x : value) (k : string) :
  get v k = Return x -> v <> VUndefined /\ v <> VNull /\ x = prop v k.
Proof.
  intros H. unfold prop. rewrite H.
  repeat split; intros ->; discriminate H.
Qed.

Lemma new_Date_value (v : value) (d : js_date) :
  new_Date v = Return d -> d = NewDate v.
Proof.
  unfold new_Date. destruct v as [ | | | | | l | ps | ];
    try (now intros [= <-]).
  - destruct (to_string (VArr l)); [ now intros [= <-] | discriminate ].
  - destruct (lookup "valueOf" ps) as [ [ | | | | | | | ] | ];
      try discriminate;
      (destruct (to_string (VObj ps)); [ now intros [= <-] | discriminate ]).
Qed.

Lemma can_date_new_Date (v : value) :
  can_date v = true -> new_Date v = Return (NewDate v).
Proof.
  unfold can_date. destruct (new_Date v) as [ d | ] eqn:E; [ | discriminate ].
  intros _. now rewrite (new_Date_value v d E).
Qed.

Lemma String_split_returns (v : value) (parts : list string) :
  String_split v "?" = Return parts -> exists l, v = VStr l /\ parts = split "?" l.
Proof.
  destruct v as [ | | | | l | | ps | ]; simpl; try discriminate.
  - intros [= <-]. exists l. auto.
  - destruct (lookup "split" ps) as [ [ | | | | | | | ] | ]; discriminate.
Qed.

Lemma formatItem_formattable (ctag : string) (item : value) :
  formattable item = true ->
  exists l, get item "link" = Return (VStr l)
            /\ formatItem ctag item = Return (formatted ctag item l).
Proof.
  unfold formattable. intros H. apply andb_true_iff in H. destruct H as [ Hd Hl ].
  destruct (has_link_inv item Hl) as (ps & l & -> & E).
  assert (Hg : forall k, get (VObj ps) k = Return (prop (VObj ps) k)).
  { intros k. apply get_prop; discriminate. }
  exists l. split.
  - simpl. rewrite E. reflexivity.
  - unfold formatItem. rewrite !Hg. cbn [rbind].
    rewrite (can_date_new_Date _ Hd). cbn [rbind].
    assert (El : prop (VObj ps) "link" = VStr l) by (unfold prop; simpl; now rewrite E).
    rewrite El. reflexivity.
Qed.

(** What the callback returned is [formatted], and its item was
    [formattable]. *)
Lemma formatItem_returns (ctag : string) (item : value) (o : FeedItem.t) :
  formatItem ctag item = Return o ->
  exists l, get item "link" = Return (VStr l)
            /\ o = formatted ctag item l /\ formattable item = true.
Proof.
  unfold formatItem.
  destruct (get item "isoDate") as [ iso | ] eqn:Eiso; [ | discriminate ].
  destruct (get_returns item iso "isoDate" Eiso) as (Hu & Hn & ->).
  rewrite !(get_prop item _ Hu Hn). cbn [rbind].
  destruct (new_Date (prop item "isoDate")) as [ d | ] eqn:Ed; [ | discriminate ].
  cbn [rbind].
  destruct (String_split (prop item "link") "?") as [ parts | ] eqn:Es;
    [ | discriminate ].
  cbn [rbind]. intros [= <-].
  destruct (String_split_returns _ _ Es) as (l & El & ->).
  rewrite (new_Date_value _ _ Ed).
  exists l. split; [ now rewrite <- El | ]. split; [ reflexivity | ].
  unfold formattable, can_date, has_link.
  rewrite Ed, (get_prop item "link" Hu Hn), El. reflexivity.
Qed.

Lemma mapM_Forall2 {A B : Type} (f : A -> result B) (ok_in : A -> bool)
  (R : A -> B -> Prop) :
  (forall x, ok_in x = true -> exists y, f x = Return y /\ R x y) ->
  forall l, forallb ok_in l = true ->
  exists out, mapM f l = Return out /\ Forall2 R l out.
Proof.
  intros Hf. induction l as [ | x t IH ]; simpl; intros Hl.
  - exists []. split; [reflexivity | constructor].
  - apply andb_true_iff in Hl. destruct Hl as [Hx Ht].
    destruct (Hf x Hx) as (y & Ey & Ry).
    destruct (IH Ht) as (ys & Eys & Rys).
    exists (y :: ys). rewrite Ey, Eys. simpl. split; [reflexivity | now constructor].
Qed.

Lemma mapM_returns {A B : Type} (f : A -> result B) (l : list A) (out : list B) :
  mapM f l = Return out -> Forall2 (fun x y => f x = Return y) l out.
Proof.
  revert out. induction l as [ | x t IH ]; simpl; intros out.
  - intros [= <-]. constructor.
  - destruct (f x) as [ y | ] eqn:Ex; [ | discriminate ]. cbn [rbind].
    destruct (mapM f t) as [ ys | ]; [ | discriminate ]. cbn [rbind].
    intros [= <-]. constructor; [ exact Ex | now apply IH ].
Qed.

Lemma mapM_app_throw {A B : Type} (f : A -> result B) (good : list A) (x : A)
  (rest : list A) (e : exn) :
  (forall a, In a good -> exists b, f a = Return b) ->
  f x = Throw e ->
  mapM f (good ++ x :: rest) = Throw e.
Proof.
  intros Hgood Hx. induction good as [ | a t IH ]; simpl.
  - rewrite Hx. reflexivity.
  - destruct (Hgood a (or_introl eq_refl)) as (b & ->). simpl.
    rewrite IH; [ reflexivity | ]. intros a' Ha'. apply Hgood. now right.
Qed.

(** On a feed whose items are all formattable, [formatRSS] returns. *)
Lemma formatRSS_total (json : value) (items : list value) (kind : string) :
  get json "items" = Return (VArr items) ->
  forallb formattable items = true ->
  exists out, formatRSS json kind = Return out.
Proof.
  intros Hitems Hall. unfold formatRSS. rewrite Hitems. simpl.
  destruct (mapM_Forall2 (formatItem (ctag_of kind)) formattable (fun _ _ => True))
    with (l := items) as (out & E & _); [ | exact Hall | now exists out ].
  intros x Hx. destruct (formatItem_formattable (ctag_of kind) x Hx) as (l & _ & Ef).
  eexists. split; [ exact Ef | exact I ].
Qed.

(** Whatever [formatRSS] returns is, item by item, [formatted]. *)
Lemma formatRSS_returns (json : value) (items : list value) (kind : string)
  (out : list FeedItem.t) :
  get json "items" = Return (VArr items) ->
  formatRSS json kind = Return out ->
  Forall2 (fun item o =>
             exists l, get item "link" = Return (VStr l)
                       /\ formatItem (ctag_of kind) item = Return o
                       /\ o = formatted (ctag_of kind) item l) items out.
Proof.
  intros Hitems. unfold formatRSS. rewrite Hitems. simpl. intros E.
  eapply Forall2_impl; [ | exact (mapM_returns _ _ _ E) ].
  intros item o Ho. destruct (formatItem_returns _ _ _ Ho) as (l & Hl & Hf & _).
  exists l. auto.
Qed.

Lemma Forall2_nth_error {A B : Type} (R : A -> B -> Prop) (l : list A) (out : list B) :
  Forall2 R l out ->
  forall i a, nth_error l i = Some a ->
  exists b, nth_error out i = Some b /\ R a b.
Proof.
  induction 1 as [ | x y l out Hxy _ IH ]; intros [ | i ] a; simpl; try discriminate.
  - intros [= ->]. exists y. auto.
  - apply IH.
Qed.

Lemma includes_qmark_cons (c : ascii) (t : string) :
  includes (String c t) "?" = Ascii.eqb c "?" || includes t "?".
Proof.
  cbn [includes prefix]. destruct (ascii_dec "?" c) as [ <- | Hne ].
  - destruct t; reflexivity.
  - destruct (Ascii.eqb_spec c "?") as [ -> | _ ]; [ now elim Hne | reflexivity ].
Qed.

Lemma split_without_separator (s : string) :
  includes s "?" = false -> split "?" s = [s].
Proof.
  induction s as [ | c t IH ]; [ reflexivity | ].
  rewrite includes_qmark_cons. intros H. apply orb_false_iff in H.
  destruct H as [Hc Ht]. simpl. rewrite Hc, (IH Ht). reflexivity.
Qed.

Lemma split_at_first_separator (s : string) :
  includes s "?" = true ->
  exists pre post,
    s = pre ++ String "?" post /\ includes pre "?" = false
    /\ first (split "?" s) = VStr pre.
Proof.
  induction s as [ | c t IH ]; [ discriminate | ].
  rewrite includes_qmark_cons. simpl split.
  destruct (Ascii.eqb_spec c "?") as [ -> | Hne ]; simpl orb.
  - intros _. exists EmptyString, t. repeat split.
  - intros Ht. destruct (IH Ht) as (pre & post & -> & Hpre & Hfirst).
    exists (String c pre), post. split; [ reflexivity | ]. split.
    + rewrite includes_qmark_cons, Hpre.
      destruct (Ascii.eqb_spec c "?"); [ contradiction | reflexivity ].
    + destruct (split "?" (pre ++ String "?" post)) as [ | h r ]; [ discriminate | ].
      simpl in Hfirst. injection Hfirst as ->. reflexivity.
Qed.

Example formatRSS_sample_user :
  formatRSS sample_feed "user" =
  Return [ {| FeedItem.date := NewDate (VStr "2019-03-01T10:00:00.000Z");
              FeedItem.link := VStr "https://medium.com/p/1";
              FeedItem.guid := VStr "https://medium.com/p/1";
              FeedItem.title := VStr "One";
              FeedItem.author := VStr "Ann";
              FeedItem.content := VStr "<p>full</p>";
              FeedItem.categories := VArr [VStr "js"] |};
           {| FeedItem.date := NewDate VUndefined;
              FeedItem.link := VStr "https://medium.com/p/2";
              FeedItem.guid := VUndefined;
              FeedItem.title := VUndefined;
              FeedItem.author := VUndefined;
              FeedItem.content := VUndefined;
              FeedItem.categories := VArr [] |} ].
Proof. reflexivity. Qed.

Example formatRSS_sample_tag_content :
  rbind (formatRSS sample_feed "tag") (fun out => Return (map FeedItem.content out))
  = Return [VStr "short"; VUndefined].
Proof. reflexivity. Qed.

(** An item without a link, and a feed without items, end in the engine's
    [TypeError]. *)
Example formatRSS_malformed :
  formatRSS (VObj [("items", VArr [VObj [("title", VStr "One")]])]) "user"
    = Throw NativeTypeError
  /\ formatRSS (VObj []) "user" = Throw NativeTypeError.
Proof. split; reflexivity. Qed.

(** So does an item whose date cannot be converted to a primitive, here an
    object whose [toString] is a number. *)
Example formatRSS_undated :
  JSON_parse (quoted "{'items':[{'isoDate':{'toString':1},'link':'a'}]}")
    = Return undated_feed
  /\ formatRSS undated_feed "user" = Throw NativeTypeError.
Proof. split; reflexivity. Qed.

(** C1.  Whatever [formatRSS] returns on a parsed feed, the [content] of
    every record is the [content:encoded] field of its item for the kinds
    [user] and [publication], and the [description] field of its item for
    the kinds [topic] and [tag]; and [formatRSS] does return when every
    item can be formatted (its [isoDate] makes a date, its link is a
    string). *)
Theorem formatRSS_content_by_kind (json : value) (items : list value) (kind : string) :
  get json "items" = Return (VArr items) ->
  (forallb formattable items = true ->
   exists out, formatRSS json kind = Return out)
  /\
  (forall out,
     formatRSS json kind = Return out ->
     (kind = "user" \/ kind = "publication" ->
      Forall2 (fun item o => FeedItem.content o = prop item "content:encoded") items out)
     /\
     (kind = "topic" \/ kind = "tag" ->
      Forall2 (fun item o => FeedItem.content o = prop item "description") items out)).
Proof.
  intros Hitems. split; [ apply (formatRSS_total json items kind Hitems) | ].
  intros out Eout. pose proof (formatRSS_returns json items kind out Hitems Eout) as Hout.
  split; intros Hkind;
    (eapply Forall2_impl; [ | exact Hout ]);
    intros item o (l & _ & _ & ->); simpl;
    destruct Hkind as [ -> | -> ]; reflexivity.
Qed.

Lemma formatRSS_content_by_kind_witness :
  (exists out,
     formatRSS sample_feed "publication" = Return out /\
     Forall2 (fun item o => FeedItem.content o = prop item "content:encoded")
       sample_items out)
  /\
  (exists out,
     formatRSS sample_feed "tag" = Return out /\
     Forall2 (fun item o => FeedItem.content o = prop item "description")
       sample_items out).
Proof.
  split.
  - destruct (formatRSS_content_by_kind sample_feed sample_items "publication" eq_refl)
      as [ Hret Hcontent ].
    destruct (Hret eq_refl) as (out & E).
    exists out. split; [ exact E | apply (Hcontent out E); right; reflexivity ].
  - destruct (formatRSS_content_by_kind sample_feed sample_items "tag" eq_refl)
      as [ Hret Hcontent ].
    destruct (Hret eq_refl) as (out & E).
    exists out. split; [ exact E | apply (Hcontent out E); right; reflexivity ].
Defined.

(** C6.  Whatever [formatRSS] returns on a parsed feed, the link of the
    record of an item is the item's link cut before its first [?]: when the
    link contains a [?], it is the part strictly before the first one; when
    it contains none, it is the link unchanged.  And [formatRSS] does return
    when every item can be formatted. *)
Theorem formatRSS_link_before_query (json : value) (items : list value)
  (kind : string) (i : nat) (item : value) (l : string) :
  get json "items" = Return (VArr items) ->
  nth_error items i = Some item ->
  get item "link" = Return (VStr l) ->
  (forallb formattable items = true ->
   exists out, formatRSS json kind = Return out)
  /\
  (forall out,
     formatRSS json kind = Return out ->
     exists o,
       nth_error out i = Some o /\
       (includes l "?" = true ->
        exists pre post,
          l = pre ++ String "?" post /\ includes pre "?" = false
          /\ FeedItem.link o = VStr pre) /\
       (includes l "?" = false -> FeedItem.link o = VStr l)).
Proof.
  intros Hitems Hi Hl. split; [ apply (formatRSS_total json items kind Hitems) | ].
  intros out Eout. pose proof (formatRSS_returns json items kind out Hitems Eout) as Hout.
  destruct (Forall2_nth_error _ _ _ Hout i _ Hi) as (o & Ho & l' & Hl' & _ & ->).
  rewrite Hl in Hl'. injection Hl' as <-.
  exists (formatted (ctag_of kind) item l). split; [ exact Ho | ]. simpl. split.
  - intros Hq. exact (split_at_first_separator l Hq).
  - intros Hq. rewrite (split_without_separator l Hq). reflexivity.
Qed.

Lemma formatRSS_link_before_query_witness :
  (exists out o pre post,
     formatRSS sample_feed "user" = Return out /\ nth_error out 0 = Some o /\
     "https://medium.com/p/1?source=rss----1" = pre ++ String "?" post /\
     includes pre "?" = false /\ FeedItem.link o = VStr pre)
  /\
  (exists out o,
     formatRSS sample_feed "user" = Return out /\ nth_error out 1 = Some o /\
     FeedItem.link o = VStr "https://medium.com/p/2").
Proof.
  split.
  - destruct (formatRSS_link_before_query sample_feed sample_items "user" 0
                (nth 0 sample_items VNull) "https://medium.com/p/1?source=rss----1"
                eq_refl eq_refl eq_refl) as [ Hret Hlink ].
    destruct (Hret eq_refl) as (out & E).
    destruct (Hlink out E) as (o & Ho & H & _).
    destruct (H eq_refl) as (pre & post & Hl & Hpre & Ho').
    exists out, o, pre, post. auto.
  - destruct (formatRSS_link_before_query sample_feed sample_items "user" 1
                (nth 1 sample_items VNull) "https://medium.com/p/2"
                eq_refl eq_refl eq_refl) as [ Hret Hlink ].
    destruct (Hret eq_refl) as (out & E).
    destruct (Hlink out E) as (o & Ho & _ & H).
    exists out, o. auto.
Defined.

(** C10, as the code has it.  On a parsed feed whose items can all be
    formatted (the [isoDate] of each makes a date, the link of each is a
    string), [formatRSS] returns; and whatever it returns holds the records
    of the items in the order of the items list, one record per item: the
    k-th record is what the callback makes of the k-th item, with the
    item's own [guid], [title], [creator] and date, and with the empty
    sequence for categories when the item has none. *)
Theorem formatRSS_one_record_per_item (json : value) (items : list value)
  (kind : string) :
  get json "items" = Return (VArr items) ->
  (forallb formattable items = true ->
   exists out, formatRSS json kind = Return out)
  /\
  (forall out,
     formatRSS json kind = Return out ->
     List.length out = List.length items /\
     Forall2 (fun item o =>
                formatItem (ctag_of kind) item = Return o
                /\ FeedItem.date o = NewDate (prop item "isoDate")
                /\ FeedItem.guid o = prop item "guid"
                /\ FeedItem.title o = prop item "title"
                /\ FeedItem.author o = prop item "creator"
                /\ (prop item "categories" = VUndefined ->
                    FeedItem.categories o = VArr [])) items out).
Proof.
  intros Hitems. split; [ apply (formatRSS_total json items kind Hitems) | ].
  intros out Eout. pose proof (formatRSS_returns json items kind out Hitems Eout) as Hout.
  split.
  - symmetry. exact (Forall2_length Hout).
  - eapply Forall2_impl; [ | exact Hout ].
    intros item o (l & _ & Ef & ->). simpl.
    repeat (split; [ first [ exact Ef | reflexivity ] | ]).
    intros ->. reflexivity.
Qed.

Lemma formatRSS_one_record_per_item_witness :
  exists out,
    formatRSS sample_feed "tag" = Return out /\
    List.length out = List.length sample_items /\
    Forall2 (fun item o =>
               formatItem (ctag_of "tag") item = Return o
               /\ FeedItem.date o = NewDate (prop item "isoDate")
               /\ FeedItem.guid o = prop item "guid"
               /\ FeedItem.title o = prop item "title"
               /\ FeedItem.author o = prop item "creator"
               /\ (prop item "categories" = VUndefined ->
                   FeedItem.categories o = VArr [])) sample_items out.
Proof.
  destruct (formatRSS_one_record_per_item sample_feed sample_items "tag" eq_refl)
    as [ Hret Hrecords ].
  destruct (Hret eq_refl) as (out & E).
  exists out. split; [ exact E | exact (Hrecords out E) ].
Defined.

(** The claim C10 fails on a feed with an items list in which an item has no
    link: the list has two items, and [formatRSS] returns no record at all,
    the call of [split] on [undefined] throws. *)
Lemma formatRSS_item_without_link :
  get broken_feed "items"
  = Return (VArr [VObj [("link", VStr "https://medium.com/p/1")];
                  VObj [("title", VStr "Two")]])
  /\ formatRSS broken_feed "user" = Throw NativeTypeError.
Proof. split; reflexivity. Qed.

(** * The response validator *)

Example check_404 :
  check resp_404 "text/xml" = Throw (JsError "Response code not OK: 404").
Proof. reflexivity. Qed.

Example check_wrong_type :
  check resp_html "text/xml"
  = Throw (JsError "Response type not text/xml: Text/HTML; charset=utf-8").
Proof. reflexivity. Qed.

Example check_passes :
  check resp_xml "text/xml" = Return "<rss/>".
Proof. reflexivity. Qed.

(** C3, as the code has it.  For an expected type written in lower case
    (the client passes [text/xml] and [application/json]):
    - a response that is not OK fails with the [Error] that carries the
      status code, whatever its headers and body;
    - an OK response that carries a Content-Type header fails with the
      [Error] that names the expected and the actual type when the header
      does not contain the expected type, case ignored, and gives its body
      text when it does. *)
Theorem check_validates (res : Response) (type : string) :
  toLowerCase type = type ->
  (ok res = false ->
   check res type =
   Throw (JsError ("Response code not OK: " ++ Number_toString (Dec (status res) 0))))
  /\
  (forall ct,
     ok res = true ->
     Headers_get (headers res) "Content-Type" = Some ct ->
     (contains_ci ct type = false ->
      check res type = Throw (JsError ("Response type not " ++ type ++ ": " ++ ct)))
     /\ (contains_ci ct type = true -> check res type = Return (text res))).
Proof.
  intros Htype. unfold check, contains_ci. rewrite Htype. split.
  - intros ->. reflexivity.
  - intros ct -> ->. simpl negb. cbv iota.
    split; intros ->; reflexivity.
Qed.

Lemma check_validates_witness :
  check resp_404 "text/xml" = Throw (JsError "Response code not OK: 404")
  /\ check resp_html "text/xml"
     = Throw (JsError "Response type not text/xml: Text/HTML; charset=utf-8")
  /\ check resp_xml "text/xml" = Return "<rss/>".
Proof.
  split; [ | split ].
  - exact (proj1 (check_validates resp_404 "text/xml" eq_refl) eq_refl).
  - exact (proj1 (proj2 (check_validates resp_html "text/xml" eq_refl)
                    "Text/HTML; charset=utf-8" eq_refl eq_refl) eq_refl).
  - exact (proj2 (proj2 (check_validates resp_xml "text/xml" eq_refl)
                    "Text/XML; charset=UTF-8" eq_refl eq_refl) eq_refl).
Defined.

(** The claim C3 fails on an OK response that carries no Content-Type
    header: the lookup gives [null], the call of [toLowerCase] on it throws,
    and [check] neither returns the body nor throws its own [Error].  It
    fails as well for an expected type written with capitals: only the
    header is folded to lower case, so the type is not found in a header
    that contains it when case is ignored. *)
Lemma check_without_content_type :
  (Headers_get [("Content-Length", "6")] "Content-Type" = None
   /\ check {| ok := true; status := 200; headers := [("Content-Length", "6")];
               text := "<rss/>" |} "text/xml"
      = Throw NativeTypeError)
  /\
  (contains_ci "text/xml" "Text/XML" = true
   /\ check {| ok := true; status := 200; headers := [("Content-Type", "text/xml")];
               text := "<rss/>" |} "Text/XML"
      = Throw (JsError "Response type not Text/XML: text/xml")).
Proof. repeat split. Qed.

(** * The topics formatter *)

Example formatTopics_scenario :
  rbind (JSON_parse scenario_json) formatTopics = Return [scenario_topic].
Proof. reflexivity. Qed.



Example formatTopics_no_topic_entry :
  rbind (JSON_parse (quoted "{'success':true,'payload':{'references':{}}}")) formatTopics
  = Throw (JsError "Invalid topics JSON").
Proof. reflexivity. Qed.

(** With a truthy flag, an exception of the reads on the way to the topic
    map is the exception of [formatTopics]. *)
Lemma formatTopics_unreadable_path (json success : value) (e : exn) :
  get json "success" = Return success ->
  truthy success = true -> topic_map json = Throw e ->
  formatTopics json = Throw e.
Proof.
  intros Hs Ht He. unfold formatTopics. rewrite Hs. simpl rbind.
  rewrite Ht, He. reflexivity.
Qed.


(** * Construction *)

Lemma typeof_function (v : value) :
  typeof v = "function" -> exists f, v = VFun f.
Proof.
  destruct v; simpl; try discriminate. intros _. eexists. reflexivity.
Qed.

(** The proxy test of the constructor lets through exactly the falsy values
    and the strings. *)
Lemma proxy_test (p : value) :
  negb (match or_false p with VBool false => true | _ => false end)
  && negb (String.eqb (typeof (or_false p)) "string")
  = truthy p && negb (String.eqb (typeof p) "string").
Proof.
  unfold or_false.
  destruct p as [ | | [ | ] | [ | | m e ] | s | | | ]; try reflexivity.
  - simpl. destruct (m =? 0)%Z; reflexivity.
  - simpl. destruct (String.eqb s ""); reflexivity.
Qed.

(** The transport the constructor settles on once the proxy is accepted. *)
Lemma new_Meed_resolves (self options p : value) :
  get (with_default options) "proxy" = Return p ->
  truthy p = false \/ typeof p = "string" ->
  self <> VNull ->
  (forall g, ambient_fetch self = Some g ->
     new_Meed self options = Return {| proxy := or_false p; fetch := g |})
  /\
  (forall f, ambient_fetch self = None ->
     get (with_default options) "fetch" = Return f ->
     new_Meed self options =
     if String.eqb (typeof f) "function"
     then Return {| proxy := or_false p; fetch := f |}
     else Throw (JsTypeError "Fetch is required and must be a function")).
Proof.
  intros Hp Hacc Hself.
  assert (Htest : truthy p && negb (String.eqb (typeof p) "string") = false).
  { destruct Hacc as [ -> | -> ]; [ reflexivity | apply andb_false_r ]. }
  unfold new_Meed, ambient_fetch. rewrite Hp. cbn [rbind].
  rewrite proxy_test, Htest.
  destruct (String.eqb (typeof self) "object") eqn:Eobj.
  - destruct (get self "fetch") as [ sf | e ] eqn:Esf.
    + cbn [rbind]. destruct (String.eqb (typeof sf) "function") eqn:Efun.
      * split; [ | discriminate ]. intros g [= <-].
        cbn [rbind]. unfold bind_to. rewrite Efun. reflexivity.
      * split; [ discriminate | ]. intros f _ ->. cbn [rbind].
        destruct (String.eqb (typeof f) "function"); reflexivity.
    + destruct self; simpl in Esf; try discriminate. now elim Hself.
  - split; [ discriminate | ]. intros f _ ->. cbn [rbind].
    destruct (String.eqb (typeof f) "function"); reflexivity.
Qed.

Lemma new_Meed_inv (self options : value) (this : Meed) :
  new_Meed self options = Return this ->
  (proxy this = VBool false /\ configured_proxy options = ""
   \/ proxy this = VStr (configured_proxy options) /\ configured_proxy options <> "")
  /\ exists f, fetch this = VFun f.
Proof.
  unfold new_Meed, configured_proxy.
  destruct (get (with_default options) "proxy") as [ p | e ]; [ | discriminate ].
  cbn [rbind]. rewrite proxy_test.
  destruct (truthy p && negb (String.eqb (typeof p) "string")) eqn:Etest;
    [ discriminate | ].
  match goal with
  | |- rbind ?a _ = _ -> _ => destruct a as [ amb | e ]; [ | discriminate ]
  end.
  cbn [rbind].
  match goal with
  | |- rbind ?a _ = _ -> _ => destruct a as [ f | e ]; [ | discriminate ]
  end.
  cbn [rbind]. destruct (String.eqb (typeof f) "function") eqn:Ef;
    [ | discriminate ].
  intros [= <-]. cbn [proxy fetch]. split.
  - unfold or_false.
    destruct p as [ | | [ | ] | [ | | m e ] | s | | | ];
      try discriminate; try (left; split; reflexivity).
    + simpl in *. destruct (m =? 0)%Z; [ left; split; reflexivity | discriminate ].
    + simpl. destruct (String.eqb_spec s "") as [ -> | Hne ];
        [ left | right ]; split; auto.
  - apply typeof_function. now apply String.eqb_eq.
Qed.

Example new_Meed_without_transport :
  new_Meed VUndefined VUndefined
  = Throw (JsTypeError "Fetch is required and must be a function").
Proof. reflexivity. Qed.

Example new_Meed_rejects_true :
  new_Meed VUndefined (VObj [("proxy", VBool true); ("fetch", VFun injected_fetch)])
  = Throw (JsTypeError "Proxy must be a string").
Proof. reflexivity. Qed.

(** C8, as the code has it.  The constructor reads [options.proxy || false]:
    a proxy option that is truthy and no string fails the construction with
    the [TypeError] "Proxy must be a string"; a falsy one ([undefined],
    [null], [false], [0], [NaN], the empty string) stands for no proxy, and
    a string is kept as it is. *)
Theorem new_Meed_proxy_option (self options p : value) :
  get (with_default options) "proxy" = Return p ->
  (truthy p = true -> typeof p <> "string" ->
   new_Meed self options = Throw (JsTypeError "Proxy must be a string"))
  /\
  (forall f,
     truthy p = false \/ typeof p = "string" ->
     self <> VNull -> ambient_fetch self = None ->
     get (with_default options) "fetch" = Return (VFun f) ->
     new_Meed self options = Return {| proxy := or_false p; fetch := VFun f |}).
Proof.
  intros Hp. split.
  - intros Ht Hs. unfold new_Meed. rewrite Hp. cbn [rbind].
    rewrite proxy_test, Ht.
    destruct (String.eqb_spec (typeof p) "string") as [ E | _ ];
      [ contradiction | reflexivity ].
  - intros f Hacc Hself Hamb Hf.
    destruct (new_Meed_resolves self options p Hp Hacc Hself) as [ _ H ].
    exact (H (VFun f) Hamb Hf).
Qed.

Lemma new_Meed_proxy_option_witness :
  new_Meed VUndefined (VObj [("proxy", VNum (Dec 8080 0)); ("fetch", VFun injected_fetch)])
  = Throw (JsTypeError "Proxy must be a string")
  /\ new_Meed VUndefined
       (VObj [("proxy", VStr "https://cors.io/?"); ("fetch", VFun injected_fetch)])
     = Return {| proxy := VStr "https://cors.io/?"; fetch := VFun injected_fetch |}
  /\ new_Meed VUndefined (VObj [("proxy", VBool false); ("fetch", VFun injected_fetch)])
     = Return {| proxy := VBool false; fetch := VFun injected_fetch |}.
Proof.
  split; [ | split ].
  - apply (proj1 (new_Meed_proxy_option VUndefined
                    (VObj [("proxy", VNum (Dec 8080 0)); ("fetch", VFun injected_fetch)])
                    (VNum (Dec 8080 0)) eq_refl));
      [ reflexivity | discriminate ].
  - apply (proj2 (new_Meed_proxy_option VUndefined
                    (VObj [("proxy", VStr "https://cors.io/?");
                           ("fetch", VFun injected_fetch)])
                    (VStr "https://cors.io/?") eq_refl) injected_fetch);
      [ right; reflexivity | discriminate | reflexivity | reflexivity ].
  - apply (proj2 (new_Meed_proxy_option VUndefined
                    (VObj [("proxy", VBool false); ("fetch", VFun injected_fetch)])
                    (VBool false) eq_refl) injected_fetch);
      [ left; reflexivity | discriminate | reflexivity | reflexivity ].
Defined.

(** The claim C8 fails on the proxy options [null], [0] and the empty
    string: none is [false] or a non-empty string, and each is accepted as
    no proxy. *)
Lemma new_Meed_accepts_falsy_proxy :
  new_Meed VUndefined (VObj [("proxy", VNull); ("fetch", VFun injected_fetch)])
  = Return {| proxy := VBool false; fetch := VFun injected_fetch |}
  /\ new_Meed VUndefined (VObj [("proxy", VNum (Dec 0 0)); ("fetch", VFun injected_fetch)])
     = Return {| proxy := VBool false; fetch := VFun injected_fetch |}
  /\ new_Meed VUndefined (VObj [("proxy", VStr ""); ("fetch", VFun injected_fetch)])
     = Return {| proxy := VBool false; fetch := VFun injected_fetch |}.
Proof. repeat split. Qed.

(** C9, as the code has it.  With an accepted proxy option, the constructor
    takes the fetch of the host when the host has one, whatever the options
    inject; without one it takes [options.fetch]; and when that is no
    function the construction fails with the [TypeError] "Fetch is required
    and must be a function". *)
Theorem new_Meed_transport (self options p : value) :
  get (with_default options) "proxy" = Return p ->
  truthy p = false \/ typeof p = "string" ->
  self <> VNull ->
  (forall g, ambient_fetch self = Some g ->
     new_Meed self options = Return {| proxy := or_false p; fetch := g |})
  /\
  (forall f, ambient_fetch self = None ->
     get (with_default options) "fetch" = Return f ->
     typeof f = "function" ->
     new_Meed self options = Return {| proxy := or_false p; fetch := f |})
  /\
  (forall f, ambient_fetch self = None ->
     get (with_default options) "fetch" = Return f ->
     typeof f <> "function" ->
     new_Meed self options
     = Throw (JsTypeError "Fetch is required and must be a function")).
Proof.
  intros Hp Hacc Hself.
  destruct (new_Meed_resolves self options p Hp Hacc Hself) as [ Hamb Hopt ].
  split; [ exact Hamb | ]. split; intros f Hnone Hf Hty; rewrite (Hopt f Hnone Hf).
  - rewrite Hty. reflexivity.
  - destruct (String.eqb_spec (typeof f) "function"); [ contradiction | reflexivity ].
Qed.

Lemma new_Meed_transport_witness :
  new_Meed (VObj [("fetch", VFun host_fetch)]) (VObj [("fetch", VFun injected_fetch)])
  = Return {| proxy := VBool false; fetch := VFun host_fetch |}
  /\ new_Meed VUndefined (VObj [("fetch", VFun injected_fetch)])
     = Return {| proxy := VBool false; fetch := VFun injected_fetch |}
  /\ new_Meed VUndefined VUndefined
     = Throw (JsTypeError "Fetch is required and must be a function").
Proof.
  split; [ | split ].
  - apply (proj1 (new_Meed_transport (VObj [("fetch", VFun host_fetch)])
                    (VObj [("fetch", VFun injected_fetch)]) VUndefined
                    eq_refl (or_introl eq_refl) ltac:(discriminate))
             (VFun host_fetch)).
    reflexivity.
  - apply (proj1 (proj2 (new_Meed_transport VUndefined
                           (VObj [("fetch", VFun injected_fetch)]) VUndefined
                           eq_refl (or_introl eq_refl) ltac:(discriminate)))
             (VFun injected_fetch)); reflexivity.
  - apply (proj2 (proj2 (new_Meed_transport VUndefined VUndefined VUndefined
                           eq_refl (or_introl eq_refl) ltac:(discriminate)))
             VUndefined); [ reflexivity | reflexivity | discriminate ].
Defined.

(** The claim C9 fails in a host that has a fetch of its own: the injected
    transport is not the one resolved, the host's is, and the requests of
    the client go to it. *)
Lemma new_Meed_prefers_host_fetch :
  new_Meed (VObj [("fetch", VFun host_fetch)]) (VObj [("fetch", VFun injected_fetch)])
  = Return {| proxy := VBool false; fetch := VFun host_fetch |}
  /\ topics {| proxy := VBool false; fetch := VFun host_fetch |}
     = (["https://medium.com/topics?format=json"], Throw (JsError "host"))
  /\ topics {| proxy := VBool false; fetch := VFun injected_fetch |}
     = (["https://medium.com/topics?format=json"], Throw (JsError "injected")).
Proof. repeat split. Qed.

(** * The client methods *)

Lemma append_empty_r (s : string) : s ++ "" = s.
Proof. induction s as [ | c t IH ]; simpl; [ | rewrite IH ]; reflexivity. Qed.

Lemma append_assoc (a b c : string) : (a ++ b) ++ c = a ++ b ++ c.
Proof. induction a as [ | x t IH ]; simpl; [ | rewrite IH ]; reflexivity. Qed.

Lemma nonempty_string_spec (v : value) :
  nonempty_string v = true <-> exists s, v = VStr s /\ s <> "".
Proof.
  unfold nonempty_string. split.
  - destruct v as [ | | | | s | | | ]; simpl; try discriminate.
    destruct s; [ discriminate | ]. intros _. eexists. split; [ reflexivity | discriminate ].
  - intros (s & -> & Hs). destruct s; [ now elim Hs | reflexivity ].
Qed.

Lemma nonempty_string_VStr (s : string) :
  s <> "" -> nonempty_string (VStr s) = true.
Proof. intros Hs. apply nonempty_string_spec. exists s. auto. Qed.

Lemma not_nonempty_string (v : value) :
  ~ (exists s, v = VStr s /\ s <> "") -> nonempty_string v = false.
Proof.
  intros H. destruct (nonempty_string v) eqn:E; [ | reflexivity ].
  elim H. now apply nonempty_string_spec.
Qed.

(** A request of a feed or of the topics hands the transport its URL, once,
    whatever becomes of the response. *)
Lemma requests_getRSS (parseString : string -> result value) (this : Meed)
  (f : transport) (url feedType contentType : string) :
  fetch this = VFun f ->
  requests (getRSS parseString this url feedType contentType) = [url].
Proof.
  intros Hf. unfold getRSS, call. rewrite Hf.
  destruct (f url) as [ res | e ]; [ | reflexivity ]. cbn [iobind lift].
  destruct (check res contentType) as [ rss | e ]; [ | reflexivity ].
  destruct (parseRSS parseString rss) as [ json | e ]; [ | reflexivity ].
  destruct (formatRSS json feedType); reflexivity.
Qed.

Lemma requests_getTopics (this : Meed) (f : transport) (url contentType : string) :
  fetch this = VFun f ->
  requests (getTopics this url contentType) = [url].
Proof.
  intros Hf. unfold getTopics, call. rewrite Hf.
  destruct (f url) as [ res | e ]; [ | reflexivity ]. cbn [iobind lift].
  destruct (check res contentType) as [ body | e ]; [ | reflexivity ].
  destruct (parseTopics body None) as [ json | e ]; [ | reflexivity ].
  destruct (formatTopics json); reflexivity.
Qed.

(** The URL a method builds on a client the constructor returned. *)
Lemma proxied_url (self options : value) (this : Meed) (path : list piece)
  (s : string) :
  new_Meed self options = Return this ->
  template path = Return s ->
  (if truthy (proxy this)
   then template (Sub (proxy this) :: Lit BASE :: path)
   else template (Lit BASE :: path))
  = Return (configured_proxy options ++ BASE ++ s).
Proof.
  intros Hnew Hpath.
  destruct (new_Meed_inv self options this Hnew) as [ [ [ -> -> ] | [ -> Hne ] ] _ ].
  - cbn [truthy template]. rewrite Hpath. reflexivity.
  - cbn [truthy]. destruct (String.eqb_spec (configured_proxy options) "") as [ E | _ ];
      [ contradiction | ].
    cbn [negb template to_string rbind]. rewrite Hpath. reflexivity.
Qed.

Lemma requests_lift_bind {A B : Type} (a : A) (k : A -> io B) :
  requests (iobind (lift (Return a)) k) = requests (k a).
Proof. unfold iobind, lift, requests. destruct (k a). reflexivity. Qed.

(** C2.  On a client the constructor returned, every method called with
    non-empty strings hands the transport exactly one URL, the documented
    one under [https://medium.com], with the configured proxy prefix in
    front of it (nothing when no proxy is configured). *)
Theorem methods_request_documented_url (parseString : string -> result value)
  (self options : value) (this : Meed) (name tg : string) :
  new_Meed self options = Return this ->
  name <> "" -> tg <> "" ->
  requests (user parseString this (VStr name))
  = [configured_proxy options ++ "https://medium.com/feed/@" ++ name]
  /\ requests (publication parseString this (VStr name) VUndefined)
     = [configured_proxy options ++ "https://medium.com/feed/" ++ name]
  /\ requests (publication parseString this (VStr name) (VStr tg))
     = [configured_proxy options ++ "https://medium.com/feed/" ++ name
          ++ "/tagged/" ++ tg]
  /\ requests (topic parseString this (VStr name))
     = [configured_proxy options ++ "https://medium.com/feed/topic/" ++ name]
  /\ requests (tag parseString this (VStr name))
     = [configured_proxy options ++ "https://medium.com/feed/tag/" ++ name]
  /\ requests (topics this)
     = [configured_proxy options ++ "https://medium.com/topics?format=json"].
Proof.
  intros Hnew Hname Htg.
  destruct (new_Meed_inv self options this Hnew) as [ _ [ f Hf ] ].
  pose proof (nonempty_string_VStr name Hname) as Nname.
  pose proof (nonempty_string_VStr tg Htg) as Ntg.
  repeat split.
  - unfold user. rewrite Nname. cbn [negb].
    rewrite (proxied_url self options this [Lit "/feed/@"; Sub (VStr name)]
               ("/feed/@" ++ name) Hnew) by (simpl; now rewrite append_empty_r).
    rewrite requests_lift_bind, (requests_getRSS _ _ f) by exact Hf. reflexivity.
  - unfold publication. rewrite Nname. cbn [negb andb].
    rewrite (proxied_url self options this [Lit "/feed/"; Sub (VStr name)]
               ("/feed/" ++ name) Hnew) by (simpl; now rewrite append_empty_r).
    rewrite !requests_lift_bind, (requests_getRSS _ _ f) by exact Hf. reflexivity.
  - unfold publication. rewrite Nname, Ntg. cbn [negb andb].
    rewrite (proxied_url self options this [Lit "/feed/"; Sub (VStr name)]
               ("/feed/" ++ name) Hnew) by (simpl; now rewrite append_empty_r).
    rewrite requests_lift_bind. cbn [template to_string rbind].
    rewrite requests_lift_bind, (requests_getRSS _ _ f) by exact Hf.
    rewrite append_empty_r, append_assoc. reflexivity.
  - unfold topic. rewrite Nname. cbn [negb].
    rewrite (proxied_url self options this [Lit "/feed/topic/"; Sub (VStr name)]
               ("/feed/topic/" ++ name) Hnew) by (simpl; now rewrite append_empty_r).
    rewrite requests_lift_bind, (requests_getRSS _ _ f) by exact Hf. reflexivity.
  - unfold tag. rewrite Nname. cbn [negb].
    rewrite (proxied_url self options this [Lit "/feed/tag/"; Sub (VStr name)]
               ("/feed/tag/" ++ name) Hnew) by (simpl; now rewrite append_empty_r).
    rewrite requests_lift_bind, (requests_getRSS _ _ f) by exact Hf. reflexivity.
  - unfold topics.
    rewrite (proxied_url self options this [Lit "/topics?format=json"]
               "/topics?format=json" Hnew) by reflexivity.
    rewrite requests_lift_bind, (requests_getTopics _ f) by exact Hf. reflexivity.
Qed.

Example scenario_1_and_2 :
  requests (user no_parser {| proxy := VBool false; fetch := VFun injected_fetch |}
              (VStr "alice"))
  = ["https://medium.com/feed/@alice"]
  /\ requests (publication no_parser
                 {| proxy := VBool false; fetch := VFun injected_fetch |}
                 (VStr "foo") (VStr "bar"))
     = ["https://medium.com/feed/foo/tagged/bar"].
Proof. split; reflexivity. Qed.

(** Scenario 1, end to end, with a parser that reads the sample feed out of
    any RSS text. *)
Example scenario_1_end_to_end :
  user (fun _ => Return sample_feed)
    {| proxy := VBool false; fetch := VFun (fun _ => Return resp_xml) |}
    (VStr "alice")
  = (["https://medium.com/feed/@alice"],
     rbind (formatRSS sample_feed "user") (fun out => Return out))
  /\ rbind (formatRSS sample_feed "user")
        (fun out => Return (map FeedItem.author out))
     = Return [VStr "Ann"; VUndefined].
Proof. split; reflexivity. Qed.

Lemma methods_request_documented_url_witness :
  requests (user no_parser
              {| proxy := VStr "https://cors.io/?"; fetch := VFun injected_fetch |}
              (VStr "foo"))
  = ["https://cors.io/?https://medium.com/feed/@foo"]
  /\ requests (publication no_parser
                 {| proxy := VStr "https://cors.io/?"; fetch := VFun injected_fetch |}
                 (VStr "foo") VUndefined)
     = ["https://cors.io/?https://medium.com/feed/foo"]
  /\ requests (publication no_parser
                 {| proxy := VStr "https://cors.io/?"; fetch := VFun injected_fetch |}
                 (VStr "foo") (VStr "bar"))
     = ["https://cors.io/?https://medium.com/feed/foo/tagged/bar"]
  /\ requests (topic no_parser
                 {| proxy := VStr "https://cors.io/?"; fetch := VFun injected_fetch |}
                 (VStr "foo"))
     = ["https://cors.io/?https://medium.com/feed/topic/foo"]
  /\ requests (tag no_parser
                 {| proxy := VStr "https://cors.io/?"; fetch := VFun injected_fetch |}
                 (VStr "foo"))
     = ["https://cors.io/?https://medium.com/feed/tag/foo"]
  /\ requests (topics
                 {| proxy := VStr "https://cors.io/?"; fetch := VFun injected_fetch |})
     = ["https://cors.io/?https://medium.com/topics?format=json"].
Proof.
  exact (methods_request_documented_url no_parser VUndefined
           (VObj [("proxy", VStr "https://cors.io/?"); ("fetch", VFun injected_fetch)])
           {| proxy := VStr "https://cors.io/?"; fetch := VFun injected_fetch |}
           "foo" "bar" eq_refl ltac:(discriminate) ltac:(discriminate)).
Defined.

(** C7.  Called with an argument that is not a non-empty string, [user],
    [publication], [topic] and [tag] fail with their [TypeError] and hand the
    transport nothing; so does [publication] with a valid name and a tag
    that is given and is not a non-empty string. *)
Theorem methods_reject_invalid_argument (parseString : string -> result value)
  (this : Meed) (arg other : value) :
  ~ (exists s, arg = VStr s /\ s <> "") ->
  user parseString this arg
  = ([], Throw (JsTypeError "User is required and must be a string"))
  /\ publication parseString this arg other
     = ([], Throw (JsTypeError "Publication is required and must be a string"))
  /\ topic parseString this arg
     = ([], Throw (JsTypeError "Topic is required and must be a string"))
  /\ tag parseString this arg
     = ([], Throw (JsTypeError "Tag is required and must be a string"))
  /\ (forall name,
        name <> "" -> arg <> VUndefined ->
        publication parseString this (VStr name) arg
        = ([], Throw (JsTypeError "Tag must be a string"))).
Proof.
  intros Harg. pose proof (not_nonempty_string arg Harg) as N.
  unfold user, publication, topic, tag. rewrite N. cbn [negb].
  repeat split.
  intros name Hname Hdef. rewrite (nonempty_string_VStr name Hname). cbn [negb].
  destruct arg; try reflexivity. now elim Hdef.
Qed.

Lemma methods_reject_invalid_argument_witness :
  topic no_parser {| proxy := VBool false; fetch := VFun scenario_fetch |} (VStr "")
  = ([], Throw (JsTypeError "Topic is required and must be a string"))
  /\ user no_parser {| proxy := VBool false; fetch := VFun scenario_fetch |}
       (VNum (Dec 7 0))
     = ([], Throw (JsTypeError "User is required and must be a string"))
  /\ publication no_parser {| proxy := VBool false; fetch := VFun scenario_fetch |}
       (VStr "foo") VNull
     = ([], Throw (JsTypeError "Tag must be a string")).
Proof.
  split; [ | split ].
  - apply (methods_reject_invalid_argument no_parser
             {| proxy := VBool false; fetch := VFun scenario_fetch |}
             (VStr "") VUndefined).
    intros (s & E & Hs). injection E as <-. now apply Hs.
  - apply (methods_reject_invalid_argument no_parser
             {| proxy := VBool false; fetch := VFun scenario_fetch |}
             (VNum (Dec 7 0)) VUndefined).
    intros (s & E & _). discriminate E.
  - apply (methods_reject_invalid_argument no_parser
             {| proxy := VBool false; fetch := VFun scenario_fetch |}
             VNull VUndefined);
      [ intros (s & E & _); discriminate E | discriminate | discriminate ].
Defined.

(** * The topics decoder *)

Lemma drop_append (pre rest : string) : drop (String.length pre) (pre ++ rest) = rest.
Proof. induction pre as [ | c t IH ]; simpl; [ destruct rest | ]; auto. Qed.

Lemma length_append (a b : string) :
  String.length (a ++ b) = (String.length a + String.length b)%nat.
Proof. induction a as [ | c t IH ]; simpl; [ | rewrite IH ]; reflexivity. Qed.

Lemma slice_prefix (pre rest : string) :
  slice (pre ++ rest) (Z.of_nat (String.length pre)) = rest.
Proof.
  unfold slice. rewrite length_append.
  destruct (Z.ltb_spec (Z.of_nat (String.length pre)) 0) as [ Hneg | _ ]; [ lia | ].
  rewrite Z.min_l by lia. rewrite Nat2Z.id. apply drop_append.
Qed.

Example guard_prefix_length : String.length guard_prefix = 16%nat.
Proof. reflexivity. Qed.

Example quoted_writes_quotes :
  quoted "{'a':1}"
  = String "{" (String dquote (String "a" (String dquote (String ":" (String "1" "}"))))).
Proof. reflexivity. Qed.

Example parseTopics_scenario :
  parseTopics scenario_body None = JSON_parse scenario_json.
Proof. reflexivity. Qed.

(** C5.  [parseTopics] removes the first [offset] characters of the body, 16
    when no offset is given, and parses what is left as JSON; and a
    [topics()] call whose response passes the check with the body of
    scenario 3 returns the one topic of that scenario. *)
Theorem parseTopics_strips_offset :
  (forall pre rest offset,
     offset = Z.of_nat (String.length pre) ->
     parseTopics (pre ++ rest) (Some offset) = JSON_parse rest)
  /\ (forall json, parseTopics json None = parseTopics json (Some 16%Z))
  /\ (forall self options this f res,
        new_Meed self options = Return this ->
        fetch this = VFun f ->
        f (configured_proxy options ++ "https://medium.com/topics?format=json")
        = Return res ->
        check res "application/json" = Return scenario_body ->
        outcome (topics this) = Return [scenario_topic]).
Proof.
  split; [ | split ].
  - intros pre rest offset ->. unfold parseTopics. rewrite slice_prefix. reflexivity.
  - reflexivity.
  - intros self options this f res Hnew Hf Hres Hcheck. unfold topics.
    rewrite (proxied_url self options this [Lit "/topics?format=json"]
               "/topics?format=json" Hnew) by reflexivity.
    unfold getTopics, call. rewrite Hf. cbn [lift iobind BASE append].
    rewrite Hres. cbn [iobind]. rewrite Hcheck. reflexivity.
Qed.

Lemma parseTopics_strips_offset_witness :
  parseTopics scenario_body (Some 16%Z) = JSON_parse scenario_json
  /\ outcome (topics {| proxy := VBool false; fetch := VFun scenario_fetch |})
     = Return [scenario_topic].
Proof.
  split.
  - exact (proj1 parseTopics_strips_offset guard_prefix scenario_json 16%Z eq_refl).
  - exact (proj2 (proj2 parseTopics_strips_offset) VUndefined
             (VObj [("fetch", VFun scenario_fetch)])
             {| proxy := VBool false; fetch := VFun scenario_fetch |}
             scenario_fetch
             scenario_response
             eq_refl eq_refl eq_refl eq_refl).
Defined.

(** * More on the feed formatter *)

Lemma String_split_throws (v : value) :
  (forall l, v <> VStr l) -> has_callable "split" v = false ->
  String_split v "?" = Throw NativeTypeError.
Proof.
  intros Hs Hc. destruct v as [ | | | | l | | ps | ]; try reflexivity.
  - now elim (Hs l).
  - simpl in *. destruct (lookup "split" ps) as [ [ | | | | | | | ] | ];
      try reflexivity; discriminate.
Qed.

(** The items the callback of [formatRSS] throws the engine's [TypeError]
    on: the conversion of the date throws it, or the date is made and the
    link is no string (and no object with a [split] function of its own). *)
Lemma formatItem_throws (ctag : string) (item : value) :
  new_Date (prop item "isoDate") = Throw NativeTypeError
  \/ (can_date (prop item "isoDate") = true /\ has_link item = false
      /\ has_callable "split" (prop item "link") = false) ->
  formatItem ctag item = Throw NativeTypeError.
Proof.
  intros H. unfold formatItem.
  assert (Hcase : item = VUndefined \/ item = VNull
                  \/ (item <> VUndefined /\ item <> VNull)).
  { destruct item; auto; right; right; split; discriminate. }
  destruct Hcase as [ -> | [ -> | [ Hu Hn ] ] ]; try reflexivity.
  rewrite !(get_prop item _ Hu Hn). cbn [rbind].
  destruct H as [ -> | (Hd & Hl & Hc) ]; [ reflexivity | ].
  rewrite (can_date_new_Date _ Hd). cbn [rbind].
  rewrite String_split_throws; [ reflexivity | | exact Hc ].
  intros l El. unfold has_link in Hl.
  rewrite (get_prop item "link" Hu Hn), El in Hl. discriminate.
Qed.

(** X1.  A feed the formatter cannot take fails as a whole with the engine's
    [TypeError], and no record is returned: when [json.items] is no array
    (and no object with a [map] function of its own), and when the items
    before some item can be formatted and that item cannot, because its
    date cannot be converted or because its link is no string (and no
    object with a [split] function of its own). *)
Theorem formatRSS_fails_as_a_whole (json : value) (kind : string) :
  (forall v,
     get json "items" = Return v ->
     (forall l, v <> VArr l) -> has_callable "map" v = false ->
     formatRSS json kind = Throw NativeTypeError)
  /\
  (forall good item rest,
     get json "items" = Return (VArr (good ++ item :: rest)) ->
     forallb formattable good = true ->
     new_Date (prop item "isoDate") = Throw NativeTypeError
     \/ (can_date (prop item "isoDate") = true /\ has_link item = false
         /\ has_callable "split" (prop item "link") = false) ->
     formatRSS json kind = Throw NativeTypeError).
Proof.
  unfold formatRSS. split.
  - intros v -> Hv Hc. cbn [rbind].
    destruct v as [ | | | | | l | ps | ]; try reflexivity.
    + now elim (Hv l).
    + simpl in *. destruct (lookup "map" ps) as [ [ | | | | | | | ] | ];
        try reflexivity; discriminate.
  - intros good item rest -> Hgood Hitem. cbn [rbind Array_map].
    apply mapM_app_throw.
    + intros a Ha. rewrite forallb_forall in Hgood.
      destruct (formatItem_formattable (ctag_of kind) a (Hgood a Ha)) as (l & _ & E).
      eexists. exact E.
    + exact (formatItem_throws (ctag_of kind) item Hitem).
Qed.

Lemma formatRSS_fails_as_a_whole_witness :
  formatRSS (VObj [("items", VStr "none")]) "tag" = Throw NativeTypeError
  /\ formatRSS broken_feed "user" = Throw NativeTypeError
  /\ formatRSS undated_feed "topic" = Throw NativeTypeError.
Proof.
  split; [ | split ].
  - apply (proj1 (formatRSS_fails_as_a_whole (VObj [("items", VStr "none")]) "tag")
             (VStr "none") eq_refl); [ discriminate | reflexivity ].
  - apply (proj2 (formatRSS_fails_as_a_whole broken_feed "user")
             [VObj [("link", VStr "https://medium.com/p/1")]]
             (VObj [("title", VStr "Two")]) [] eq_refl eq_refl).
    right. repeat split.
  - apply (proj2 (formatRSS_fails_as_a_whole undated_feed "topic")
             [] (VObj [("isoDate", VObj [("toString", VNum (Dec 1 0))]);
                       ("link", VStr "a")]) [] eq_refl eq_refl).
    left. reflexivity.
Defined.

Lemma prefix_append (p x : string) : prefix p (p ++ x) = true.
Proof.
  induction p as [ | c t IH ]; [ destruct x; reflexivity | ].
  cbn [append prefix]. destruct (ascii_dec c c) as [ _ | Hne ];
    [ exact IH | now elim Hne ].
Qed.

Lemma first_split_no_query (l : string) :
  exists p, first (split "?" l) = VStr p
            /\ includes p "?" = false /\ prefix p l = true.
Proof.
  destruct (includes l "?") eqn:Hq.
  - destruct (split_at_first_separator l Hq) as (pre & post & -> & Hpre & Hfirst).
    exists pre. repeat split; auto using prefix_append.
  - exists l. rewrite (split_without_separator l Hq). repeat split; auto.
    rewrite <- (append_empty_r l) at 2. apply prefix_append.
Qed.

(** X2.  No formatted link has a query: whatever [formatRSS] returns on a
    parsed feed, the link of every record is a string without [?], and it
    is a prefix of the link of its item.  And [formatRSS] does return when
    every item can be formatted. *)
Theorem formatRSS_links_have_no_query (json : value) (items : list value)
  (kind : string) :
  get json "items" = Return (VArr items) ->
  (forallb formattable items = true ->
   exists out, formatRSS json kind = Return out)
  /\
  (forall out,
     formatRSS json kind = Return out ->
     Forall2 (fun item o =>
                exists l p, get item "link" = Return (VStr l)
                            /\ FeedItem.link o = VStr p
                            /\ includes p "?" = false
                            /\ prefix p l = true) items out).
Proof.
  intros Hitems. split; [ apply (formatRSS_total json items kind Hitems) | ].
  intros out Eout. pose proof (formatRSS_returns json items kind out Hitems Eout) as Hout.
  eapply Forall2_impl; [ | exact Hout ].
  intros item o (l & Hl & _ & ->). simpl.
  destruct (first_split_no_query l) as (p & Hp & Hq & Hpre).
  exists l, p. auto.
Qed.

Lemma formatRSS_links_have_no_query_witness :
  exists out,
    formatRSS sample_feed "user" = Return out /\
    Forall2 (fun item o =>
               exists l p, get item "link" = Return (VStr l)
                           /\ FeedItem.link o = VStr p
                           /\ includes p "?" = false
                           /\ prefix p l = true) sample_items out.
Proof.
  destruct (formatRSS_links_have_no_query sample_feed sample_items "user" eq_refl)
    as [ Hret Hlinks ].
  destruct (Hret eq_refl) as (out & E).
  exists out. split; [ exact E | exact (Hlinks out E) ].
Defined.

(** X3.  The categories of a record are never falsy: whatever [formatRSS]
    returns on a parsed feed, a truthy [categories] of the item is handed
    on as it is, array or not, and any falsy one ([undefined], [null], the
    empty string, [0]) becomes the empty array.  And [formatRSS] does
    return when every item can be formatted. *)
Theorem formatRSS_categories_default (json : value) (items : list value)
  (kind : string) :
  get json "items" = Return (VArr items) ->
  (forallb formattable items = true ->
   exists out, formatRSS json kind = Return out)
  /\
  (forall out,
     formatRSS json kind = Return out ->
     Forall2 (fun item o =>
                truthy (FeedItem.categories o) = true
                /\ (truthy (prop item "categories") = true ->
                    FeedItem.categories o = prop item "categories")
                /\ (truthy (prop item "categories") = false ->
                    FeedItem.categories o = VArr [])) items out).
Proof.
  intros Hitems. split; [ apply (formatRSS_total json items kind Hitems) | ].
  intros out Eout. pose proof (formatRSS_returns json items kind out Hitems Eout) as Hout.
  eapply Forall2_impl; [ | exact Hout ].
  intros item o (l & _ & _ & ->). simpl.
  destruct (truthy (prop item "categories")) eqn:E; repeat split; auto; discriminate.
Qed.

Lemma formatRSS_categories_default_witness :
  exists out,
    formatRSS (VObj [("items", VArr [VObj [("link", VStr "a"); ("categories", VNull)];
                                     VObj [("link", VStr "b"); ("categories", VStr "js")]])])
      "user" = Return out /\
    Forall2 (fun item o =>
               truthy (FeedItem.categories o) = true
               /\ (truthy (prop item "categories") = true ->
                   FeedItem.categories o = prop item "categories")
               /\ (truthy (prop item "categories") = false ->
                   FeedItem.categories o = VArr []))
      [VObj [("link", VStr "a"); ("categories", VNull)];
       VObj [("link", VStr "b"); ("categories", VStr "js")]] out.
Proof.
  destruct (formatRSS_categories_default
              (VObj [("items", VArr [VObj [("link", VStr "a"); ("categories", VNull)];
                                     VObj [("link", VStr "b"); ("categories", VStr "js")]])])
              [VObj [("link", VStr "a"); ("categories", VNull)];
               VObj [("link", VStr "b"); ("categories", VStr "js")]]
              "user" eq_refl) as [ Hret Hcats ].
  destruct (Hret eq_refl) as (out & E).
  exists out. split; [ exact E | exact (Hcats out E) ].
Defined.

Lemma Forall2_join {A B C : Type} (R1 : A -> B -> Prop) (R2 : A -> C -> Prop)
  (R : B -> C -> Prop) :
  (forall x y z, R1 x y -> R2 x z -> R y z) ->
  forall l a b, Forall2 R1 l a -> Forall2 R2 l b -> Forall2 R a b.
Proof.
  intros HR l a b H1. revert b.
  induction H1 as [ | x y l a Hxy _ IH ]; intros b H2; inversion H2; subst.
  - constructor.
  - constructor; [ eapply HR; eassumption | now apply IH ].
Qed.

Lemma ctag_of_other (kind : string) :
  kind <> "user" -> kind <> "publication" -> ctag_of kind = "description".
Proof.
  intros Hu Hp. unfold ctag_of. simpl.
  apply String.eqb_neq in Hu. apply String.eqb_neq in Hp. now rewrite Hu, Hp.
Qed.

(** X4.  The kind only selects the content field: what [formatRSS] returns
    on one feed under two kinds agrees in date, link, guid, title, author
    and categories, and under every kind that is not exactly [user] or
    [publication] (in whatever spelling) the content is the description.
    And [formatRSS] does return, under every kind, when every item can be
    formatted. *)
Theorem formatRSS_kind_only_selects_content (json : value) (items : list value)
  (kind1 kind2 : string) :
  get json "items" = Return (VArr items) ->
  (forallb formattable items = true ->
   exists out1 out2,
     formatRSS json kind1 = Return out1 /\ formatRSS json kind2 = Return out2)
  /\
  (forall out1 out2,
     formatRSS json kind1 = Return out1 -> formatRSS json kind2 = Return out2 ->
     Forall2 (fun a b =>
                FeedItem.date a = FeedItem.date b
                /\ FeedItem.link a = FeedItem.link b
                /\ FeedItem.guid a = FeedItem.guid b
                /\ FeedItem.title a = FeedItem.title b
                /\ FeedItem.author a = FeedItem.author b
                /\ FeedItem.categories a = FeedItem.categories b) out1 out2)
  /\
  (forall out1,
     formatRSS json kind1 = Return out1 ->
     kind1 <> "user" -> kind1 <> "publication" ->
     Forall2 (fun item o => FeedItem.content o = prop item "description") items out1).
Proof.
  intros Hitems. split; [ | split ].
  - intros Hall.
    destruct (formatRSS_total json items kind1 Hitems Hall) as (out1 & E1).
    destruct (formatRSS_total json items kind2 Hitems Hall) as (out2 & E2).
    exists out1, out2. auto.
  - intros out1 out2 E1 E2.
    pose proof (formatRSS_returns json items kind1 out1 Hitems E1) as H1.
    pose proof (formatRSS_returns json items kind2 out2 Hitems E2) as H2.
    eapply Forall2_join; [ | exact H1 | exact H2 ].
    intros item a b (l & Hl & _ & ->) (l' & Hl' & _ & ->).
    rewrite Hl in Hl'. injection Hl' as <-. simpl. repeat split.
  - intros out1 E1 Hu Hp.
    pose proof (formatRSS_returns json items kind1 out1 Hitems E1) as H1.
    eapply Forall2_impl; [ | exact H1 ].
    intros item o (l & _ & _ & ->). simpl. now rewrite (ctag_of_other kind1 Hu Hp).
Qed.

Lemma formatRSS_kind_only_selects_content_witness :
  exists out1 out2,
    formatRSS sample_feed "User" = Return out1
    /\ formatRSS sample_feed "user" = Return out2
    /\ Forall2 (fun a b =>
                  FeedItem.date a = FeedItem.date b
                  /\ FeedItem.link a = FeedItem.link b
                  /\ FeedItem.guid a = FeedItem.guid b
                  /\ FeedItem.title a = FeedItem.title b
                  /\ FeedItem.author a = FeedItem.author b
                  /\ FeedItem.categories a = FeedItem.categories b) out1 out2
    /\ Forall2 (fun item o => FeedItem.content o = prop item "description")
         sample_items out1.
Proof.
  destruct (formatRSS_kind_only_selects_content sample_feed sample_items
              "User" "user" eq_refl) as (Hret & Hagree & Hdesc).
  destruct (Hret eq_refl) as (out1 & out2 & E1 & E2).
  exists out1, out2. repeat split; auto.
  apply (Hdesc out1 E1); discriminate.
Defined.

(** * More on the topics formatter *)

Lemma formatTopic_ok (k : string) (v : value) :
  topic_entry_ok v = true ->
  formatTopic (k, v)
  = Return {| Topic.slug := prop v "slug";
              Topic.link := "https://medium.com/topic/" ++ printed (prop v "slug");
              Topic.name := prop v "name";
              Topic.image := "https://cdn-images-1.medium.com/"
                             ++ printed (prop (prop v "image") "id");
              Topic.description := prop v "description" |}.
Proof.
  unfold topic_entry_ok, formatTopic. cbn [snd].
  destruct (get v "slug") as [ sl | ] eqn:Esl; [ | discriminate ].
  destruct (get v "image") as [ img | ] eqn:Eimg; [ | discriminate ].
  destruct (to_string sl) as [ s | ] eqn:Es; [ | discriminate ].
  destruct (get img "id") as [ i | ] eqn:Ei; [ | discriminate ].
  destruct (to_string i) as [ t | ] eqn:Et; [ | discriminate ].
  intros _.
  assert (Hv : v <> VUndefined /\ v <> VNull).
  { split; intros ->; discriminate Esl. }
  destruct Hv as [ Hu Hn ].
  assert (Psl : prop v "slug" = sl) by (unfold prop; now rewrite Esl).
  assert (Pimg : prop v "image" = img) by (unfold prop; now rewrite Eimg).
  assert (Pid : prop img "id" = i) by (unfold prop; now rewrite Ei).
  assert (Ps : printed sl = s) by (unfold printed; now rewrite Es).
  assert (Pt : printed i = t) by (unfold printed; now rewrite Et).
  rewrite Psl, Pimg, Pid, Ps, Pt.
  rewrite (get_prop v "name" Hu Hn), (get_prop v "description" Hu Hn).
  cbn [rbind template]. rewrite Es. cbn [rbind]. rewrite Ei. cbn [rbind].
  rewrite Et. cbn [rbind]. rewrite !append_empty_r. reflexivity.
Qed.

Lemma formatTopics_valid (json success m : value) (entries : list (string * value)) :
  get json "success" = Return success -> truthy success = true ->
  topic_map json = Return m -> truthy m = true ->
  Object_entries m = Return entries ->
  formatTopics json = mapM formatTopic entries.
Proof.
  intros Hs Ht Hm Htm He. unfold formatTopics.
  rewrite Hs. cbn [rbind]. rewrite Ht, Hm. cbn [negb rbind]. rewrite Htm.
  cbn [negb]. rewrite He. reflexivity.
Qed.

(** X5.  A valid topics directory gives one topic per entry of the topic
    map, in the order of the map: the topic carries the entry's own slug,
    name and description, its link is [https://medium.com/topic/] followed
    by the slug as printed, and its image is
    [https://cdn-images-1.medium.com/] followed by the image id as printed.
    The keys of the map are not used. *)
Theorem formatTopics_one_topic_per_entry (json success m : value)
  (entries : list (string * value)) :
  get json "success" = Return success -> truthy success = true ->
  topic_map json = Return m -> truthy m = true ->
  Object_entries m = Return entries ->
  forallb (fun e => topic_entry_ok (snd e)) entries = true ->
  exists out,
    formatTopics json = Return out /\
    Forall2 (fun e t =>
               Topic.slug t = prop (snd e) "slug"
               /\ Topic.link t = "https://medium.com/topic/" ++ printed (prop (snd e) "slug")
               /\ Topic.name t = prop (snd e) "name"
               /\ Topic.image t = "https://cdn-images-1.medium.com/"
                                  ++ printed (prop (prop (snd e) "image") "id")
               /\ Topic.description t = prop (snd e) "description") entries out.
Proof.
  intros Hs Ht Hm Htm He Hall.
  rewrite (formatTopics_valid json success m entries Hs Ht Hm Htm He).
  apply mapM_Forall2 with (ok_in := fun e => topic_entry_ok (snd e)); [ | exact Hall ].
  intros [ k v ] Hv. cbn [snd] in *. rewrite (formatTopic_ok k v Hv).
  eexists. split; [ reflexivity | ]. cbn. repeat split.
Qed.

Lemma formatTopics_one_topic_per_entry_witness :
  formatTopics (topics_json sample_topic_entries)
  = Return [ {| Topic.slug := VStr "ai";
                Topic.link := "https://medium.com/topic/ai";
                Topic.name := VStr "AI";
                Topic.image := "https://cdn-images-1.medium.com/img1";
                Topic.description := VStr "d" |};
             {| Topic.slug := VUndefined;
                Topic.link := "https://medium.com/topic/undefined";
                Topic.name := VStr "Art";
                Topic.image := "https://cdn-images-1.medium.com/img2";
                Topic.description := VUndefined |} ]
  /\ exists out,
       formatTopics (topics_json sample_topic_entries) = Return out /\
       Forall2 (fun e t =>
                  Topic.slug t = prop (snd e) "slug"
                  /\ Topic.link t = "https://medium.com/topic/"
                                    ++ printed (prop (snd e) "slug")
                  /\ Topic.name t = prop (snd e) "name"
                  /\ Topic.image t = "https://cdn-images-1.medium.com/"
                                     ++ printed (prop (prop (snd e) "image") "id")
                  /\ Topic.description t = prop (snd e) "description")
         sample_topic_entries out.
Proof.
  split; [ reflexivity | ].
  exact (formatTopics_one_topic_per_entry (topics_json sample_topic_entries)
           (VBool true) (VObj sample_topic_entries) sample_topic_entries
           eq_refl eq_refl eq_refl eq_refl eq_refl eq_refl).
Defined.

Lemma formatTopic_without_image (k : string) (v : value) (s : string) :
  to_string (prop v "slug") = Return s ->
  prop v "image" = VUndefined \/ prop v "image" = VNull ->
  formatTopic (k, v) = Throw NativeTypeError.
Proof.
  intros Hs Himg. unfold formatTopic. cbn [snd].
  assert (Hcase : v = VUndefined \/ v = VNull \/ (v <> VUndefined /\ v <> VNull)).
  { destruct v; auto; right; right; split; discriminate. }
  destruct Hcase as [ -> | [ -> | [ Hu Hn ] ] ]; try reflexivity.
  rewrite !(get_prop v _ Hu Hn). cbn [rbind template]. rewrite Hs. cbn [rbind].
  destruct Himg as [ -> | -> ]; reflexivity.
Qed.

(** X6.  One entry without an image fails the whole directory: when the
    entries before it can be formatted and its own [image] is absent or
    [null], [formatTopics] throws the engine's [TypeError] and returns no
    topic at all. *)
Theorem formatTopics_entry_without_image (json success m : value)
  (good rest : list (string * value)) (k : string) (v : value) (s : string) :
  get json "success" = Return success -> truthy success = true ->
  topic_map json = Return m -> truthy m = true ->
  Object_entries m = Return (good ++ (k, v) :: rest)%list ->
  forallb (fun e => topic_entry_ok (snd e)) good = true ->
  to_string (prop v "slug") = Return s ->
  prop v "image" = VUndefined \/ prop v "image" = VNull ->
  formatTopics json = Throw NativeTypeError.
Proof.
  intros Hs Ht Hm Htm He Hgood Hslug Himg.
  rewrite (formatTopics_valid json success m _ Hs Ht Hm Htm He).
  apply mapM_app_throw.
  - intros [ k' v' ] Hin. rewrite forallb_forall in Hgood.
    specialize (Hgood _ Hin). cbn [snd] in Hgood.
    rewrite (formatTopic_ok k' v' Hgood). eexists. reflexivity.
  - exact (formatTopic_without_image k v s Hslug Himg).
Qed.

Lemma formatTopics_entry_without_image_witness :
  formatTopics (topics_json broken_topic_entries) = Throw NativeTypeError.
Proof.
  exact (formatTopics_entry_without_image (topics_json broken_topic_entries)
           (VBool true) (VObj broken_topic_entries)
           [ nth 0 broken_topic_entries ("", VNull) ] []
           "t2" (VObj [("slug", VStr "art"); ("name", VStr "Art")]) "art"
           eq_refl eq_refl eq_refl eq_refl eq_refl eq_refl eq_refl
           (or_introl eq_refl)).
Defined.

(** * More on the client *)

(** X7.  Every client the constructor returns is well formed: its proxy is
    [false] or a non-empty string, and its fetch is a function. *)
Theorem new_Meed_returns_well_formed_client (self options : value) (this : Meed) :
  new_Meed self options = Return this ->
  (proxy this = VBool false \/ exists p, p <> "" /\ proxy this = VStr p)
  /\ exists f, fetch this = VFun f.
Proof.
  intros Hnew. destruct (new_Meed_inv self options this Hnew) as [ Hp Hf ].
  split; [ | exact Hf ].
  destruct Hp as [ [ Hp _ ] | [ Hp Hne ] ]; [ now left | right ].
  exists (configured_proxy options). auto.
Qed.

Lemma new_Meed_returns_well_formed_client_witness :
  (proxy {| proxy := VStr "https://cors.io/?"; fetch := VFun injected_fetch |}
   = VBool false
   \/ exists p, p <> ""
        /\ proxy {| proxy := VStr "https://cors.io/?"; fetch := VFun injected_fetch |}
           = VStr p)
  /\ exists f, fetch {| proxy := VStr "https://cors.io/?"; fetch := VFun injected_fetch |}
               = VFun f.
Proof.
  exact (new_Meed_returns_well_formed_client VUndefined
           (VObj [("proxy", VStr "https://cors.io/?"); ("fetch", VFun injected_fetch)])
           {| proxy := VStr "https://cors.io/?"; fetch := VFun injected_fetch |}
           eq_refl).
Defined.

Lemma iobind_lift_return {A B : Type} (a : A) (k : A -> io B) :
  iobind (lift (Return a)) k = k a.
Proof. unfold iobind, lift. destruct (k a). reflexivity. Qed.

Lemma requests_getRSS_any (parseString : string -> result value) (this : Meed)
  (url feedType contentType : string) :
  requests (getRSS parseString this url feedType contentType)
  = match fetch this with VFun _ => [url] | _ => [] end.
Proof.
  destruct (fetch this) as [ | | | | | | | f ] eqn:Ef;
    try (unfold getRSS, call; rewrite Ef; reflexivity).
  exact (requests_getRSS parseString this f url feedType contentType Ef).
Qed.

Lemma requests_getTopics_any (this : Meed) (url contentType : string) :
  requests (getTopics this url contentType)
  = match fetch this with VFun _ => [url] | _ => [] end.
Proof.
  destruct (fetch this) as [ | | | | | | | f ] eqn:Ef;
    try (unfold getTopics, call; rewrite Ef; reflexivity).
  exact (requests_getTopics this f url contentType Ef).
Qed.

Lemma at_most_one (this : Meed) (url : string) :
  (List.length (match fetch this with VFun _ => [url] | _ => @nil string end) <= 1)%nat.
Proof. destruct (fetch this); simpl; lia. Qed.

Lemma requests_after_url {A : Type} (r : result string) (k : string -> io A) :
  (forall url, List.length (requests (k url)) <= 1)%nat ->
  (List.length (requests (iobind (lift r) k)) <= 1)%nat.
Proof.
  intros Hk. destruct r as [ url | e ].
  - rewrite requests_lift_bind. apply Hk.
  - simpl. lia.
Qed.

(** X8.  No call makes more than one request: whatever the client and the
    arguments, every method hands the transport at most one URL. *)
Theorem methods_request_at_most_once (parseString : string -> result value)
  (this : Meed) (name tg : value) :
  (List.length (requests (user parseString this name)) <= 1)%nat
  /\ (List.length (requests (publication parseString this name tg)) <= 1)%nat
  /\ (List.length (requests (topic parseString this name)) <= 1)%nat
  /\ (List.length (requests (tag parseString this name)) <= 1)%nat
  /\ (List.length (requests (topics this)) <= 1)%nat.
Proof.
  assert (Hrss : forall url kind,
            (List.length (requests (getRSS parseString this url kind "text/xml")) <= 1)%nat).
  { intros url kind. rewrite requests_getRSS_any. apply at_most_one. }
  unfold user, publication, topic, tag, topics.
  repeat split.
  - destruct (negb (nonempty_string name)); [ simpl; lia | ].
    apply requests_after_url. intros url. apply Hrss.
  - destruct (negb (nonempty_string name)); [ simpl; lia | ].
    destruct (_ && _); [ simpl; lia | ].
    apply requests_after_url. intros url.
    apply requests_after_url. intros url'. apply Hrss.
  - destruct (negb (nonempty_string name)); [ simpl; lia | ].
    apply requests_after_url. intros url. apply Hrss.
  - destruct (negb (nonempty_string name)); [ simpl; lia | ].
    apply requests_after_url. intros url. apply Hrss.
  - apply requests_after_url. intros url.
    rewrite requests_getTopics_any. apply at_most_one.
Qed.

(** What the promise of a feed request settles to. *)
Lemma outcome_getRSS (parseString : string -> result value) (this : Meed)
  (f : transport) (url feedType contentType : string) :
  fetch this = VFun f ->
  outcome (getRSS parseString this url feedType contentType)
  = (res <- f url ;; rss <- check res contentType ;;
     json <- parseString rss ;; formatRSS json feedType).
Proof.
  intros Hf. unfold getRSS, call, parseRSS. rewrite Hf.
  destruct (f url) as [ res | e ]; [ | reflexivity ]. cbn [iobind lift rbind].
  destruct (check res contentType) as [ rss | e ]; [ | reflexivity ].
  cbn [rbind]. destruct (parseString rss) as [ json | e ]; [ | reflexivity ].
  cbn [rbind]. destruct (formatRSS json feedType); reflexivity.
Qed.

Lemma outcome_getTopics (this : Meed) (f : transport) (url contentType : string) :
  fetch this = VFun f ->
  outcome (getTopics this url contentType)
  = (res <- f url ;; body <- check res contentType ;;
     json <- parseTopics body None ;; formatTopics json).
Proof.
  intros Hf. unfold getTopics, call. rewrite Hf.
  destruct (f url) as [ res | e ]; [ | reflexivity ]. cbn [iobind lift rbind].
  destruct (check res contentType) as [ body | e ]; [ | reflexivity ].
  cbn [rbind]. destruct (parseTopics body None) as [ json | e ]; [ | reflexivity ].
  cbn [rbind]. destruct (formatTopics json); reflexivity.
Qed.

(** On a client of the constructor and with valid arguments, a method is the
    request of its URL under its kind. *)
Lemma methods_are_requests (parseString : string -> result value)
  (self options : value) (this : Meed) (name tg : string) :
  new_Meed self options = Return this ->
  name <> "" -> tg <> "" ->
  exists u1 u2 u3 u4 u5 u6,
    user parseString this (VStr name) = getRSS parseString this u1 "user" "text/xml"
    /\ publication parseString this (VStr name) VUndefined
       = getRSS parseString this u2 "publication" "text/xml"
    /\ publication parseString this (VStr name) (VStr tg)
       = getRSS parseString this u3 "publication" "text/xml"
    /\ topic parseString this (VStr name) = getRSS parseString this u4 "topic" "text/xml"
    /\ tag parseString this (VStr name) = getRSS parseString this u5 "tag" "text/xml"
    /\ topics this = getTopics this u6 "application/json".
Proof.
  intros Hnew Hname Htg.
  pose proof (nonempty_string_VStr name Hname) as Nname.
  pose proof (nonempty_string_VStr tg Htg) as Ntg.
  assert (Hurl : forall path s, template path = Return s ->
            (if truthy (proxy this)
             then template (Sub (proxy this) :: Lit BASE :: path)
             else template (Lit BASE :: path))
            = Return (configured_proxy options ++ BASE ++ s)).
  { intros path s. apply (proxied_url self options this path s Hnew). }
  unfold user, publication, topic, tag, topics. rewrite Nname, Ntg. cbn [negb andb].
  rewrite (Hurl [Lit "/feed/@"; Sub (VStr name)] _ eq_refl).
  rewrite (Hurl [Lit "/feed/"; Sub (VStr name)] _ eq_refl).
  rewrite (Hurl [Lit "/feed/topic/"; Sub (VStr name)] _ eq_refl).
  rewrite (Hurl [Lit "/feed/tag/"; Sub (VStr name)] _ eq_refl).
  rewrite (Hurl [Lit "/topics?format=json"] _ eq_refl).
  cbn [template to_string rbind].
  rewrite !iobind_lift_return.
  do 6 eexists. repeat split.
Qed.

(** X9.  A rejection of the transport is the rejection of the method: when
    the transport rejects with [e], every method called with valid arguments
    on a client of the constructor settles to [e]. *)
Theorem methods_propagate_rejection (parseString : string -> result value)
  (self options : value) (this : Meed) (f : transport) (e : exn) (name tg : string) :
  new_Meed self options = Return this ->
  fetch this = VFun f ->
  (forall url, f url = Throw e) ->
  name <> "" -> tg <> "" ->
  outcome (user parseString this (VStr name)) = Throw e
  /\ outcome (publication parseString this (VStr name) VUndefined) = Throw e
  /\ outcome (publication parseString this (VStr name) (VStr tg)) = Throw e
  /\ outcome (topic parseString this (VStr name)) = Throw e
  /\ outcome (tag parseString this (VStr name)) = Throw e
  /\ outcome (topics this) = Throw e.
Proof.
  intros Hnew Hf He Hname Htg.
  destruct (methods_are_requests parseString self options this name tg Hnew Hname Htg)
    as (u1 & u2 & u3 & u4 & u5 & u6 & -> & -> & -> & -> & -> & ->).
  rewrite !(outcome_getRSS parseString this f _ _ _ Hf).
  rewrite (outcome_getTopics this f _ _ Hf). rewrite !He. repeat split.
Qed.

Lemma methods_propagate_rejection_witness :
  outcome (user no_parser (client_of host_fetch) (VStr "alice")) = Throw (JsError "host")
  /\ outcome (publication no_parser (client_of host_fetch) (VStr "foo") VUndefined)
     = Throw (JsError "host")
  /\ outcome (publication no_parser (client_of host_fetch) (VStr "foo") (VStr "bar"))
     = Throw (JsError "host")
  /\ outcome (topic no_parser (client_of host_fetch) (VStr "foo")) = Throw (JsError "host")
  /\ outcome (tag no_parser (client_of host_fetch) (VStr "foo")) = Throw (JsError "host")
  /\ outcome (topics (client_of host_fetch)) = Throw (JsError "host").
Proof.
  split.
  - exact (proj1 (methods_propagate_rejection no_parser VUndefined
                    (VObj [("fetch", VFun host_fetch)]) (client_of host_fetch)
                    host_fetch (JsError "host") "alice" "bar"
                    eq_refl eq_refl (fun _ => eq_refl)
                    ltac:(discriminate) ltac:(discriminate))).
  - exact (proj2 (methods_propagate_rejection no_parser VUndefined
                    (VObj [("fetch", VFun host_fetch)]) (client_of host_fetch)
                    host_fetch (JsError "host") "foo" "bar"
                    eq_refl eq_refl (fun _ => eq_refl)
                    ltac:(discriminate) ltac:(discriminate))).
Defined.

(** X10.  A response that fails the check fails the method with the error of
    the check: the feed methods check for [text/xml], [topics] checks for
    [application/json], and a response that is not OK fails all of them with
    the [Error] that carries its status, whatever its body. *)
Theorem methods_fail_with_the_check (parseString : string -> result value)
  (self options : value) (this : Meed) (f : transport) (res : Response)
  (name tg : string) :
  new_Meed self options = Return this ->
  fetch this = VFun f ->
  (forall url, f url = Return res) ->
  name <> "" -> tg <> "" ->
  (forall e, check res "text/xml" = Throw e ->
     outcome (user parseString this (VStr name)) = Throw e
     /\ outcome (publication parseString this (VStr name) VUndefined) = Throw e
     /\ outcome (publication parseString this (VStr name) (VStr tg)) = Throw e
     /\ outcome (topic parseString this (VStr name)) = Throw e
     /\ outcome (tag parseString this (VStr name)) = Throw e)
  /\ (forall e, check res "application/json" = Throw e ->
        outcome (topics this) = Throw e)
  /\ (ok res = false ->
      check res "text/xml"
      = Throw (JsError ("Response code not OK: " ++ Number_toString (Dec (status res) 0)))
      /\ check res "application/json"
         = Throw (JsError ("Response code not OK: " ++ Number_toString (Dec (status res) 0)))).
Proof.
  intros Hnew Hf Hres Hname Htg.
  destruct (methods_are_requests parseString self options this name tg Hnew Hname Htg)
    as (u1 & u2 & u3 & u4 & u5 & u6 & -> & -> & -> & -> & -> & ->).
  rewrite !(outcome_getRSS parseString this f _ _ _ Hf).
  rewrite (outcome_getTopics this f _ _ Hf). rewrite !Hres. cbn [rbind].
  split; [ | split ].
  - intros e ->. repeat split.
  - intros e ->. reflexivity.
  - intros Hok. unfold check. rewrite Hok. split; reflexivity.
Qed.

Lemma methods_fail_with_the_check_witness :
  outcome (user no_parser (client_of (always (Return resp_404))) (VStr "alice"))
  = Throw (JsError "Response code not OK: 404")
  /\ outcome (topics (client_of (always (Return resp_404))))
     = Throw (JsError "Response code not OK: 404")
  /\ outcome (topics (client_of (always (Return resp_xml))))
     = Throw (JsError "Response type not application/json: Text/XML; charset=UTF-8").
Proof.
  split; [ | split ].
  - exact (proj1 (proj1 (methods_fail_with_the_check no_parser VUndefined
                           (VObj [("fetch", VFun (always (Return resp_404)))])
                           (client_of (always (Return resp_404)))
                           (always (Return resp_404)) resp_404 "alice" "bar"
                           eq_refl eq_refl (fun _ => eq_refl)
                           ltac:(discriminate) ltac:(discriminate))
                    (JsError "Response code not OK: 404") eq_refl)).
  - exact (proj1 (proj2 (methods_fail_with_the_check no_parser VUndefined
                           (VObj [("fetch", VFun (always (Return resp_404)))])
                           (client_of (always (Return resp_404)))
                           (always (Return resp_404)) resp_404 "alice" "bar"
                           eq_refl eq_refl (fun _ => eq_refl)
                           ltac:(discriminate) ltac:(discriminate)))
             (JsError "Response code not OK: 404") eq_refl).
  - exact (proj1 (proj2 (methods_fail_with_the_check no_parser VUndefined
                           (VObj [("fetch", VFun (always (Return resp_xml)))])
                           (client_of (always (Return resp_xml)))
                           (always (Return resp_xml)) resp_xml "alice" "bar"
                           eq_refl eq_refl (fun _ => eq_refl)
                           ltac:(discriminate) ltac:(discriminate)))
             (JsError "Response type not application/json: Text/XML; charset=UTF-8")
             eq_refl).
Defined.

(** X11.  A response that passes the check is parsed and formatted under the
    kind of the method: [user], [publication], [topic] and [tag] give what
    [formatRSS] makes, under their own kind, of what the RSS parser reads in
    the body (an error of the parser is the error of the method), and
    [topics] gives what [formatTopics] makes of the body decoded at the
    default offset. *)
Theorem methods_parse_and_format (parseString : string -> result value)
  (self options : value) (this : Meed) (f : transport) (res : Response)
  (name tg : string) :
  new_Meed self options = Return this ->
  fetch this = VFun f ->
  (forall url, f url = Return res) ->
  name <> "" -> tg <> "" ->
  (forall body, check res "text/xml" = Return body ->
     outcome (user parseString this (VStr name))
     = (json <- parseString body ;; formatRSS json "user")
     /\ outcome (publication parseString this (VStr name) VUndefined)
        = (json <- parseString body ;; formatRSS json "publication")
     /\ outcome (publication parseString this (VStr name) (VStr tg))
        = (json <- parseString body ;; formatRSS json "publication")
     /\ outcome (topic parseString this (VStr name))
        = (json <- parseString body ;; formatRSS json "topic")
     /\ outcome (tag parseString this (VStr name))
        = (json <- parseString body ;; formatRSS json "tag"))
  /\ (forall body, check res "application/json" = Return body ->
        outcome (topics this)
        = (json <- parseTopics body (Some 16%Z) ;; formatTopics json)).
Proof.
  intros Hnew Hf Hres Hname Htg.
  destruct (methods_are_requests parseString self options this name tg Hnew Hname Htg)
    as (u1 & u2 & u3 & u4 & u5 & u6 & -> & -> & -> & -> & -> & ->).
  rewrite !(outcome_getRSS parseString this f _ _ _ Hf).
  rewrite (outcome_getTopics this f _ _ Hf). rewrite !Hres. cbn [rbind].
  split.
  - intros body ->. repeat split.
  - intros body ->. reflexivity.
Qed.

Lemma methods_parse_and_format_witness :
  outcome (tag (fun _ => Return sample_feed) (client_of (always (Return resp_xml)))
             (VStr "js"))
  = formatRSS sample_feed "tag"
  /\ outcome (user no_parser (client_of (always (Return resp_xml))) (VStr "alice"))
     = Throw JsSyntaxError
  /\ outcome (topics (client_of scenario_fetch)) = Return [scenario_topic].
Proof.
  split; [ | split ].
  - exact (proj2 (proj2 (proj2 (proj2 (proj1
             (methods_parse_and_format (fun _ => Return sample_feed) VUndefined
                (VObj [("fetch", VFun (always (Return resp_xml)))])
                (client_of (always (Return resp_xml)))
                (always (Return resp_xml)) resp_xml "js" "bar"
                eq_refl eq_refl (fun _ => eq_refl)
                ltac:(discriminate) ltac:(discriminate))
             "<rss/>" eq_refl))))).
  - exact (proj1 (proj1
             (methods_parse_and_format no_parser VUndefined
                (VObj [("fetch", VFun (always (Return resp_xml)))])
                (client_of (always (Return resp_xml)))
                (always (Return resp_xml)) resp_xml "alice" "bar"
                eq_refl eq_refl (fun _ => eq_refl)
                ltac:(discriminate) ltac:(discriminate))
             "<rss/>" eq_refl)).
  - exact (proj2
             (methods_parse_and_format no_parser VUndefined
                (VObj [("fetch", VFun scenario_fetch)])
                (client_of scenario_fetch)
                scenario_fetch scenario_response "alice" "bar"
                eq_refl eq_refl (fun _ => eq_refl)
                ltac:(discriminate) ltac:(discriminate))
             scenario_body eq_refl).
Defined.

(** * More on the topics decoder *)

Lemma drop_all (n : nat) (s : string) :
  (String.length s <= n)%nat -> drop n s = "".
Proof.
  revert s. induction n as [ | n IH ]; intros [ | c t ]; simpl; intros H;
    try reflexivity; try lia.
  apply IH. lia.
Qed.

(** X12.  The offset at the ends of the body: an offset at or beyond the
    length of the body leaves nothing to parse and fails with the
    [SyntaxError] of [JSON.parse], so a body of at most 16 characters fails
    under the default offset; and a negative offset [-k] keeps the last [k]
    characters of the body instead of dropping the first ones. *)
Theorem parseTopics_offset_at_the_ends :
  (forall json offset,
     (Z.of_nat (String.length json) <= offset)%Z ->
     parseTopics json (Some offset) = Throw JsSyntaxError)
  /\ (forall json,
        (String.length json <= 16)%nat ->
        parseTopics json None = Throw JsSyntaxError)
  /\ (forall pre rest,
        rest <> "" ->
        parseTopics (pre ++ rest) (Some (- Z.of_nat (String.length rest))%Z)
        = JSON_parse rest).
Proof.
  assert (Hbeyond : forall json offset,
            (Z.of_nat (String.length json) <= offset)%Z ->
            parseTopics json (Some offset) = Throw JsSyntaxError).
  { intros json offset H. unfold parseTopics, slice.
    destruct (Z.ltb_spec offset 0) as [ Hneg | _ ]; [ lia | ].
    rewrite Z.min_r by lia. rewrite Nat2Z.id, drop_all by lia. reflexivity. }
  split; [ exact Hbeyond | ]. split.
  - intros json H. apply (Hbeyond json 16%Z). lia.
  - intros pre rest Hrest. unfold parseTopics, slice. rewrite length_append.
    assert (Hpos : (0 < String.length rest)%nat).
    { destruct rest; [ now elim Hrest | simpl; lia ]. }
    destruct (Z.ltb_spec (- Z.of_nat (String.length rest)) 0) as [ _ | H ]; [ | lia ].
    rewrite Z.max_l by lia.
    replace (Z.of_nat (String.length pre + String.length rest)
             + - Z.of_nat (String.length rest))%Z
      with (Z.of_nat (String.length pre)) by lia.
    rewrite Nat2Z.id, drop_append. reflexivity.
Qed.

Lemma parseTopics_offset_at_the_ends_witness :
  parseTopics "{}" (Some 2%Z) = Throw JsSyntaxError
  /\ parseTopics guard_prefix None = Throw JsSyntaxError
  /\ parseTopics scenario_body (Some (- Z.of_nat (String.length scenario_json))%Z)
     = JSON_parse scenario_json.
Proof.
  split; [ | split ].
  - apply (proj1 parseTopics_offset_at_the_ends "{}" 2%Z). simpl. lia.
  - apply (proj1 (proj2 parseTopics_offset_at_the_ends) guard_prefix). simpl. lia.
  - apply (proj2 (proj2 parseTopics_offset_at_the_ends) guard_prefix scenario_json).
    discriminate.
Defined.
